(** * Acknowledgment handling of fleet-server: [cmd/fleet/handleAck.go]

    A shallow embedding of the acknowledgment handler and of the policy
    reconciler it contains, with the three library functions the policy
    action codec is built from ([strings.Split], [strconv.Atoi] and
    [uuid.FromString]), followed by the properties of the handler. *)

From Stdlib Require Import ZArith Ascii String DecimalString List Bool Lia
  Permutation.
From stdpp Require Import base option gmap strings list fin_maps.

Local Open Scope string_scope.
Local Open Scope Z_scope.

(** ** Go library functions used by the handler *)

Module strings.

(** [strings.HasPrefix(s, prefix)]. *)
Definition HasPrefix (s pre : string) : bool := String.prefix pre s.

(** [strings.Split(s, sep)] for a separator of one byte, the only use the
    handler makes of it: the substrings between the occurrences of [sep],
    in order; the result is never empty. *)
Fixpoint Split (s : string) (sep : ascii) : list string :=
  match s with
  | EmptyString => [EmptyString]
  | String c r =>
      if Ascii.eqb c sep then EmptyString :: Split r sep
      else match Split r sep with
           | h :: t => String c h :: t
           | [] => [String c EmptyString]
           end
  end.

(** The byte [c] occurs in [s] ([strings.IndexByte(s, c) >= 0]). *)
Fixpoint ContainsByte (s : string) (c : ascii) : bool :=
  match s with
  | EmptyString => false
  | String d r => Ascii.eqb d c || ContainsByte r c
  end.

End strings.

Module strconv.

(** The value of a decimal digit, [ch - '0'] when it is at most 9. *)
Definition digit (c : ascii) : option Z :=
  let n := Z.of_N (N_of_ascii c) in
  if (48 <=? n) && (n <=? 57) then Some (n - 48) else None.

(** The digit loop of [strconv.ParseUint(s, 10, 64)], on an accumulator
    that cannot overflow: [n = n*10 + d] for every byte, a syntax error
    ([None]) at the first byte that is not a digit. *)
Fixpoint digits (s : string) (n : Z) : option Z :=
  match s with
  | EmptyString => Some n
  | String c r =>
      match digit c with
      | Some d => digits r (n * 10 + d)
      | None => None
      end
  end.

(** [ParseUint] refuses the empty string. *)
Definition ParseUint (s : string) : option Z :=
  match s with
  | EmptyString => None
  | _ => digits s 0
  end.

(** [strconv.Atoi(s)] where [int] has 64 bits, i.e.
    [strconv.ParseInt(s, 10, 0)]: an optional sign, then [ParseUint];
    a magnitude that does not fit is a range error.  The magnitude is
    accumulated in [Z]; Go reports the overflow of its 64-bit
    accumulator as the same range error, so the two agree.  [None] stands
    for a non-nil [err]. *)
Definition Atoi (s : string) : option Z :=
  let cutoff := 2 ^ 63 in
  match s with
  | EmptyString => None
  | String c r =>
      let neg := Ascii.eqb c "-" in
      let s' := if Ascii.eqb c "+" || neg then r else s in
      match ParseUint s' with
      | None => None
      | Some un =>
          if negb neg && (cutoff <=? un) then None
          else if neg && (cutoff <? un) then None
          else Some (if neg then - un else un)
      end
  end.

End strconv.

Module hex.

(** [encoding/hex]'s [fromHexChar]. *)
Definition fromHexChar (c : ascii) : option Z :=
  let n := Z.of_N (N_of_ascii c) in
  if (48 <=? n) && (n <=? 57) then Some (n - 48)
  else if (97 <=? n) && (n <=? 102) then Some (n - 97 + 10)
  else if (65 <=? n) && (n <=? 70) then Some (n - 65 + 10)
  else None.

(** [hex.Decode]: two hexadecimal digits per byte; an odd length or a
    byte that is not a hexadecimal digit is an error. *)
Fixpoint Decode (src : string) : option (list Z) :=
  match src with
  | EmptyString => Some []
  | String _ EmptyString => None
  | String a (String b r) =>
      match fromHexChar a, fromHexChar b, Decode r with
      | Some x, Some y, Some l => Some ((x * 16 + y) :: l)
      | _, _, _ => None
      end
  end.

End hex.

Module uuid.

(** A [uuid.UUID] is an array of 16 bytes. *)
Definition UUID : Type := list Z.

Definition byteAt (t : string) (i : nat) : option ascii := String.get i t.

Definition isByte (t : string) (i : nat) (c : ascii) : bool :=
  match byteAt t i with
  | Some d => Ascii.eqb d c
  | None => false
  end.

(** "6ba7b8109dad11d180b400c04fd430c8" *)
Definition decodeHashLike (t : string) : option UUID := hex.Decode t.

(** "6ba7b810-9dad-11d1-80b4-00c04fd430c8": dashes at 8, 13, 18 and 23,
    and the byte groups of 8, 4, 4, 4 and 12 hexadecimal digits. *)
Definition decodeCanonical (t : string) : option UUID :=
  if negb (isByte t 8 "-" && isByte t 13 "-" && isByte t 18 "-" && isByte t 23 "-")
  then None
  else
    match hex.Decode (String.substring 0 8 t),
          hex.Decode (String.substring 9 4 t),
          hex.Decode (String.substring 14 4 t),
          hex.Decode (String.substring 19 4 t),
          hex.Decode (String.substring 24 12 t) with
    | Some a, Some b, Some c, Some d, Some e => Some ((a ++ b ++ c ++ d ++ e)%list)
    | _, _, _, _, _ => None
    end.

Definition decodePlain (t : string) : option UUID :=
  match String.length t with
  | 32%nat => decodeHashLike t
  | 36%nat => decodeCanonical t
  | _ => None
  end.

Definition decodeBraced (t : string) : option UUID :=
  let l := String.length t in
  if negb (isByte t 0 "{" && isByte t (l - 1) "}") then None
  else decodePlain (String.substring 1 (l - 2) t).

Definition urnPrefix : string := "urn:uuid:".

Definition decodeURN (t : string) : option UUID :=
  let total := String.length t in
  if negb (String.eqb (String.substring 0 9 t) urnPrefix) then None
  else decodePlain (String.substring 9 (total - 9) t).

(** [uuid.FromString] of github.com/gofrs/uuid, which is
    [UnmarshalText]: the text form is chosen by the length of the input.
    No form looks at the version or variant bits.  [None] stands for a
    non-nil [err]. *)
Definition FromString (input : string) : option UUID :=
  match String.length input with
  | 32%nat => decodeHashLike input
  | 34%nat | 38%nat => decodeBraced input
  | 36%nat => decodeCanonical input
  | 41%nat | 45%nat => decodeURN input
  | _ => None
  end.

(** [UUID.Version]: the high nibble of byte 6. *)
Definition Version (u : UUID) : Z := Z.shiftr (nth 6 u 0) 4.

End uuid.

(** ** The policy action codec *)

Record policyAction : Type := mkPolicyAction {
  policyId : string;
  revIdx : Z;
  coordIdx : Z
}.

Definition parsePolicyAction (actionId : string) : option policyAction :=
  match strings.Split actionId ":" with
  | [s0; s1; s2; s3] =>
      if negb (String.eqb s0 "policy") then None
      else match uuid.FromString s1 with
           | None => None
           | Some _ =>
               match strconv.Atoi s2 with
               | None => None
               | Some r =>
                   match strconv.Atoi s3 with
                   | None => None
                   | Some c => Some (mkPolicyAction s1 r c)
                   end
               end
           end
  | _ => None
  end.

(** ** Time stamps *)

Module time.

(** A [time.Time]: an instant in seconds since the Unix epoch and the
    offset, in seconds east of UTC, of the location it is shown in. *)
Record Time : Type := mkTime { unixSec : Z; offset : Z }.

(** [t.UTC()]: the same instant, with the location set to UTC. *)
Definition UTC (t : Time) : Time := mkTime (unixSec t) 0.

(** The proleptic Gregorian date of a day number counted from
    1970-01-01. *)
Definition civil (days : Z) : Z * Z * Z :=
  let z := days + 719468 in
  let era := z / 146097 in
  let doe := z - era * 146097 in
  let yoe := (doe - doe / 1460 + doe / 36524 - doe / 146096) / 365 in
  let doy := doe - (365 * yoe + yoe / 4 - yoe / 100) in
  let mp := (5 * doy + 2) / 153 in
  let d := doy - (153 * mp + 2) / 5 + 1 in
  let m := if mp <? 10 then mp + 3 else mp - 9 in
  let y := yoe + era * 400 + (if m <=? 2 then 1 else 0) in
  (y, m, d).

Definition digitChar (d : Z) : ascii := ascii_of_N (Z.to_N (48 + d)).

(** The [width] low decimal digits of [x], zero padded. *)
Fixpoint pad (width : nat) (x : Z) (acc : string) : string :=
  match width with
  | O => acc
  | S w => pad w (x / 10) (String (digitChar (x mod 10)) acc)
  end.

(** [appendInt(b, x, width)]: the decimal digits of [x], zero padded on the
    left to [width] digits, behind a minus sign when [x] is negative. *)
Definition appendInt (x : Z) (width : nat) (acc : string) : string :=
  let u := Z.abs x in
  let hi := u / 10 ^ Z.of_nat width in
  let high :=
    if hi =? 0 then ""
    else NilEmpty.string_of_uint (N.to_uint (Z.to_N hi)) in
  (if x <? 0 then "-" else "") ++ high ++ pad width u acc.

(** [t.Year()] *)
Definition Year (t : Time) : Z :=
  fst (fst (civil ((unixSec t + offset t) / 86400))).

(** [t.Format(time.RFC3339)], "2006-01-02T15:04:05Z07:00": the zone is "Z"
    when the offset is zero; otherwise the offset is cut to whole minutes,
    whose sign and "hh:mm" are printed.  Every number but the year is below
    100 and takes its two digits. *)
Definition Format_RFC3339 (t : Time) : string :=
  let loc := unixSec t + offset t in
  let '(y, m, d) := civil (loc / 86400) in
  let s := loc mod 86400 in
  let zone :=
    if offset t =? 0 then "Z"
    else
      let mins := Z.quot (offset t) 60 in
      let a := Z.abs mins in
      String (if mins <? 0 then "-"%char else "+"%char)
             (pad 2 (a / 60) (String ":" (pad 2 (a mod 60) "")))
  in
  appendInt y 4 (String "-" (pad 2 m (String "-" (pad 2 d (String "T"
    (pad 2 (s / 3600) (String ":" (pad 2 (s / 60 mod 60) (String ":"
      (pad 2 (s mod 60) zone)))))))))).

End time.

(** ** Data model *)

(** The fields of [model.Agent] the handler reads. *)
Record Agent : Type := mkAgent {
  Id : string;
  PolicyId : string;
  PolicyRevisionIdx : Z;
  PolicyCoordinatorIdx : Z
}.

(** An acknowledgment event of the request body. *)
Record Event : Type := mkEvent {
  EventType : string;
  SubType : string;
  Timestamp : string;
  ActionId : string;
  AgentId : string
}.

(** An action, as the cache and the saved objects hold it. *)
Record Action : Type := mkAction {
  ActionKey : string;
  Type_ : string;
  Data : string
}.

Record AckRequest : Type := mkAckRequest { Events : list Event }.

(** Go's [error] values met by the handler: the two sentinels it names and
    the errors of its collaborators. *)
Inductive error : Type :=
| ErrEventAgentIdMismatch
| context_Canceled
| OtherError (msg : string).

Definition error_eqb (a b : error) : bool :=
  match a, b with
  | ErrEventAgentIdMismatch, ErrEventAgentIdMismatch => true
  | context_Canceled, context_Canceled => true
  | OtherError x, OtherError y => String.eqb x y
  | _, _ => false
  end.

(** [err.Error()] *)
Definition Error (e : error) : string :=
  match e with
  | ErrEventAgentIdMismatch => "event agentId mismatch"
  | context_Canceled => "context canceled"
  | OtherError msg => msg
  end.

(** A value put in the update document: an [int64] or a [string]. *)
Inductive value : Type :=
| VInt (n : Z)
| VString (s : string).

Module bulk.

(** [bulk.BulkOp]; [Body] is the value handed to [json.Marshal], a map
    from "doc" to the map of the fields, whose encoding cannot fail. *)
Record BulkOp : Type := mkBulkOp {
  OpId : string;
  Body : gmap string (gmap string value);
  Index : string
}.

Inductive Opt : Type := WithRefresh.

End bulk.

Module dl.

(** The names package [dl] gives to the agent index and to the fields
    written here; their values are not part of this file. *)
Record names : Type := mkNames {
  FleetAgents : string;
  FieldPolicyRevisionIdx : string;
  FieldPolicyCoordinatorIdx : string;
  FieldUpdatedAt : string
}.

End dl.

(** ** Effects *)

(** What the handler does to its collaborators, in the order it does it. *)
Inductive Effect : Type :=
| CacheGetAction (id : string)
| SavedRead (ty id : string)
| BulkMUpdate (ops : list bulk.BulkOp) (opts : list bulk.Opt)
| LogError (err : error) (code : Z) (msg : string)
| HttpError (msg : string) (code : Z)
| ResponseWrite (data : string).

Definition Trace : Type := list Effect.

Definition isStoreWrite (e : Effect) : bool :=
  match e with BulkMUpdate _ _ => true | _ => false end.

(** The collaborators: each answer may depend on everything done so far.
    [authAgent] stands for [authAgent(r, id, bulker)], whose code is in
    another file: only its answer is modelled, and what it does to the store
    on its way is not recorded in the trace. *)
Record Env : Type := mkEnv {
  names : dl.names;
  AGENT_ACTION_SAVED_OBJECT_TYPE : string;
  gCache_GetAction : Trace -> string -> option Action;
  sv_Read : Trace -> string -> string -> error + Action;
  bulker_MUpdate : Trace -> list bulk.BulkOp -> list bulk.Opt -> option error;
  time_Now : Trace -> time.Time;
  authAgent : Trace -> string -> error + Agent;
  ioutil_ReadAll : Trace -> error + string;
  json_Unmarshal : string -> error + AckRequest;
  w_Write : Trace -> string -> option error
}.

(** A computation of the handler: it extends the trace and returns a value
    or the error it stops with. *)
Inductive result (A : Type) : Type :=
| Ok (a : A)
| Err (e : error).
Arguments Ok {A} a.
Arguments Err {A} e.

Definition M (A : Type) : Type := Trace -> result A * Trace.

Definition ret {A} (a : A) : M A := fun t => (Ok a, t).
Definition fail {A} (e : error) : M A := fun t => (Err e, t).
Definition bind {A B} (c : M A) (k : A -> M B) : M B :=
  fun t => match c t with
           | (Ok a, t') => k a t'
           | (Err e, t') => (Err e, t')
           end.
Definition emit (e : Effect) : M unit := fun t => (Ok tt, (t ++ [e])%list).
Definition history : M Trace := fun t => (Ok t, t).

Declare Scope go_scope.
Delimit Scope go_scope with go.
Notation "x <- c ;; k" := (bind c (fun x => k))
  (at level 100, c at next level, right associativity) : go_scope.
Notation "c ;;; k" := (bind c (fun _ => k))
  (at level 100, right associativity) : go_scope.
Local Open Scope go_scope.

(** A call that returns [(value, error)]. *)
Definition lift {A} (r : error + A) : M A :=
  match r with inl e => fail e | inr a => ret a end.

(** A call that returns [error]. *)
Definition check (r : option error) : M unit :=
  match r with Some e => fail e | None => ret tt end.

Section Handler.

Variable E : Env.

Definition GetAction (id : string) : M (option Action) :=
  h <- history ;; emit (CacheGetAction id) ;;; ret (gCache_GetAction E h id).

Definition Read (ty id : string) : M Action :=
  h <- history ;; emit (SavedRead ty id) ;;; lift (sv_Read E h ty id).

Definition MUpdate (ops : list bulk.BulkOp) (opts : list bulk.Opt) : M unit :=
  h <- history ;; emit (BulkMUpdate ops opts) ;;; check (bulker_MUpdate E h ops opts).

Definition Now : M time.Time := h <- history ;; ret (time_Now E h).

(** *** The policy reconciler *)

(** The condition of the loop of [_handlePolicyChange]. *)
Definition beats (agent : Agent) (action : policyAction) (currRev currCoord : Z) : bool :=
  String.eqb (policyId action) (PolicyId agent)
  && ((revIdx action >? currRev)
      || ((revIdx action =? currRev) && (coordIdx action >? currCoord))).

(** One turn of the loop, on the variables [found], [currRev] and
    [currCoord]. *)
Definition pick (agent : Agent) (st : bool * Z * Z) (a : string) : bool * Z * Z :=
  let '(found, currRev, currCoord) := st in
  match parsePolicyAction a with
  | Some action =>
      if beats agent action currRev currCoord
      then (true, revIdx action, coordIdx action)
      else st
  | None => st
  end.

Definition fields (currRev currCoord : Z) (now : time.Time) : gmap string value :=
  <[dl.FieldUpdatedAt (names E) := VString (time.Format_RFC3339 (time.UTC now))]>
    (<[dl.FieldPolicyRevisionIdx (names E) := VInt currRev]>
       (<[dl.FieldPolicyCoordinatorIdx (names E) := VInt currCoord]> ∅)).

Definition _handlePolicyChange (agent : Agent) (actionIds : list string) : M unit :=
  let '(found, currRev, currCoord) :=
    fold_left (pick agent) actionIds
              (false, PolicyRevisionIdx agent, PolicyCoordinatorIdx agent) in
  if found then
    now <- Now ;;
    let source : gmap string (gmap string value) :=
      {[ "doc" := fields currRev currCoord now ]} in
    let updates :=
      [bulk.mkBulkOp (Id agent) source (dl.FleetAgents (names E))] in
    MUpdate updates [bulk.WithRefresh]
  else ret tt.

(** *** The event loop *)

(** The variables [m] and [policyAcks] of [_handleAckEvents]; a nil
    slice is the empty list. *)
Definition groups : Type := gmap string (list Action) * list string.

(** The cache probe and the fallback read of the loop body. *)
Definition resolve (actionId : string) : M Action :=
  r <- GetAction actionId ;;
  match r with
  | Some action => ret action
  | None => Read (AGENT_ACTION_SAVED_OBJECT_TYPE E) actionId
  end.

(** [m[action.Type] = append(m[action.Type], action)] *)
Definition regroup (m : gmap string (list Action)) (action : Action)
  : gmap string (list Action) :=
  let actionList := default [] (m !! Type_ action) in
  <[Type_ action := (actionList ++ [action])%list]> m.

(** The integrity check that opens the loop body. *)
Definition agentIdMismatch (agent : Agent) (ev : Event) : bool :=
  negb (String.eqb (AgentId ev) "") && negb (String.eqb (AgentId ev) (Id agent)).

(** The rest of the loop body: a policy acknowledgment is set aside, any
    other action is resolved and grouped by its type. *)
Definition classify (st : groups) (ev : Event) : M groups :=
  let '(m, policyAcks) := st in
  if strings.HasPrefix (ActionId ev) "policy:"
  then ret (m, (policyAcks ++ [ActionId ev])%list)
  else
    action <- resolve (ActionId ev) ;;
    ret (regroup m action, policyAcks).

(** The body of the loop over the events. *)
Definition ackEvent (agent : Agent) (st : groups) (ev : Event) : M groups :=
  if agentIdMismatch agent ev then fail ErrEventAgentIdMismatch
  else classify st ev.

Fixpoint ackLoop (agent : Agent) (events : list Event) (st : groups) : M groups :=
  match events with
  | [] => ret st
  | ev :: rest => st' <- ackEvent agent st ev ;; ackLoop agent rest st'
  end.

Definition _handleAckEvents (agent : Agent) (events : list Event) : M unit :=
  st <- ackLoop agent events (∅, []) ;;
  match snd st with
  | [] => ret tt
  | policyAcks => _handlePolicyChange agent policyAcks
  end.

(** *** The request handler *)

(** The encoding of [AckResponse{"acks"}]. *)
Definition ackResponse : string :=
  let q := String (ascii_of_nat 34) "" in
  "{" ++ q ++ "action" ++ q ++ ":" ++ q ++ "acks" ++ q ++ "}".

(** [_handleAcks]; the trace-level log line of the raw body is left out. *)
Definition _handleAcks (id : string) : M unit :=
  h <- history ;;
  agent <- lift (authAgent E h id) ;;
  h <- history ;;
  raw <- lift (ioutil_ReadAll E h) ;;
  req <- lift (json_Unmarshal E raw) ;;
  _handleAckEvents agent (Events req) ;;;
  h <- history ;;
  emit (ResponseWrite ackResponse) ;;;
  check (w_Write E h ackResponse).

Definition StatusBadRequest : Z := 400.

(** [handleAcks]: an error of [_handleAcks] is logged, unless it is
    [context.Canceled], and answered with [http.Error]. *)
Definition handleAcks (id : string) : M unit :=
  fun t =>
    match _handleAcks id t with
    | (Ok _, t') => (Ok tt, t')
    | (Err err, t') =>
        let code := StatusBadRequest in
        ((if negb (error_eqb err context_Canceled)
          then emit (LogError err code "Fail ACK")
          else ret tt) ;;;
         emit (HttpError (Error err) code)) t'
    end.

End Handler.

(** ** Vocabulary of the properties *)

(** The lexicographic order on pairs (revision index, coordinator index). *)
Definition pair_lt (p q : Z * Z) : Prop :=
  fst p < fst q \/ (fst p = fst q /\ snd p < snd q).

Definition pair_le (p q : Z * Z) : Prop :=
  fst p < fst q \/ (fst p = fst q /\ snd p <= snd q).

Definition agentPair (agent : Agent) : Z * Z :=
  (PolicyRevisionIdx agent, PolicyCoordinatorIdx agent).

Definition actionPair (action : policyAction) : Z * Z :=
  (revIdx action, coordIdx action).

(** The identifier [a] is an eligible candidate with the pair [p]: it
    parses, it names the agent's policy, and [p] is beyond the pair the
    agent is at. *)
Definition eligible (agent : Agent) (a : string) (p : Z * Z) : Prop :=
  exists action,
    parsePolicyAction a = Some action
    /\ policyId action = PolicyId agent
    /\ actionPair action = p
    /\ pair_lt (agentPair agent) p.

(** The variables the loop of [_handlePolicyChange] ends with. *)
Definition scan (agent : Agent) (actionIds : list string) : bool * Z * Z :=
  fold_left (pick agent) actionIds
            (false, PolicyRevisionIdx agent, PolicyCoordinatorIdx agent).

(** What the loop's variables say after the candidates [seen]. *)
Definition settled (agent : Agent) (seen : list string) (st : bool * Z * Z) : Prop :=
  let '(found, r, c) := st in
  (forall a action, In a seen -> parsePolicyAction a = Some action ->
                    policyId action = PolicyId agent ->
                    pair_le (actionPair action) (r, c))
  /\ (if found then exists a, In a seen /\ eligible agent a (r, c)
      else (r, c) = agentPair agent).

Definition isDigit (c : ascii) : bool :=
  match strconv.digit c with Some _ => true | None => false end.

(** [s] reads "dddd-dd-ddTdd:dd:ddZ", an RFC 3339 date-time in UTC. *)
Definition rfc3339UTC (s : string) : bool :=
  match list_ascii_of_string s with
  | [y1; y2; y3; y4; da; m1; m2; db; d1; d2; tee;
     h1; h2; ca; n1; n2; cb; s1; s2; zed] =>
      forallb isDigit [y1; y2; y3; y4; m1; m2; d1; d2; h1; h2; n1; n2; s1; s2]
      && Ascii.eqb da "-" && Ascii.eqb db "-" && Ascii.eqb tee "T"
      && Ascii.eqb ca ":" && Ascii.eqb cb ":" && Ascii.eqb zed "Z"
  | _ => false
  end.

(** The one update the reconciler can issue, for the pair it settled on. *)
Definition policyUpdateOp (E : Env) (agent : Agent) (p : Z * Z) (now : time.Time)
  : bulk.BulkOp :=
  bulk.mkBulkOp (Id agent) {[ "doc" := fields E (fst p) (snd p) now ]}
                (dl.FleetAgents (names E)).

Definition policyUpdate (E : Env) (agent : Agent) (p : Z * Z) (now : time.Time)
  : Effect :=
  BulkMUpdate [policyUpdateOp E agent p now] [bulk.WithRefresh].

(** The effects of [l] are no store write. *)
Definition noStoreWrite (l : Trace) : Prop :=
  forallb (fun e => negb (isStoreWrite e)) l = true.

(** [sep] joins the strings of [l]. *)
Fixpoint Join (l : list string) (sep : ascii) : string :=
  match l with
  | [] => ""
  | [s] => s
  | s :: r => s ++ String sep (Join r sep)
  end.

(** An effect of action resolution, for an identifier that is not a policy
    acknowledgment. *)
Definition resolutionEffect (e : Effect) : Prop :=
  match e with
  | CacheGetAction id | SavedRead _ id =>
      strings.HasPrefix id "policy:" = false
  | _ => False
  end.

(** The trace [t'] ends with a read of the saved objects that failed with
    the error [e]. *)
Definition failedRead (E : Env) (e : error) (t' : Trace) : Prop :=
  exists h id,
    t' = (h ++ [SavedRead (AGENT_ACTION_SAVED_OBJECT_TYPE E) id])%list
    /\ sv_Read E h (AGENT_ACTION_SAVED_OBJECT_TYPE E) id = inl e.

(** The event passes the integrity check and acknowledges a policy change
    with an identifier the codec refuses. *)
Definition unparseablePolicyAck (agent : Agent) (ev : Event) : Prop :=
  agentIdMismatch agent ev = false
  /\ strings.HasPrefix (ActionId ev) "policy:" = true
  /\ parsePolicyAction (ActionId ev) = None.

(** The policy acknowledgments among the events, in order. *)
Definition policyAcksOf (events : list Event) : list string :=
  map ActionId
      (List.filter (fun ev => strings.HasPrefix (ActionId ev) "policy:") events).

(** The effect does not resolve a policy acknowledgment through the cache
    or the saved objects. *)
Definition notPolicyResolution (e : Effect) : Prop :=
  match e with
  | CacheGetAction id | SavedRead _ id =>
      strings.HasPrefix id "policy:" = false
  | _ => True
  end.

(** The trace holds an HTTP error response, a status of 400 or more. *)
Definition reportsFailure (l : Trace) : bool :=
  existsb (fun e => match e with HttpError _ code => 400 <=? code | _ => false end) l.

Definition logsError (l : Trace) : bool :=
  existsb (fun e => match e with LogError _ _ _ => true | _ => false end) l.

(** The bounds of [int64]. *)
Definition int64 (z : Z) : Prop := - 2 ^ 63 <= z < 2 ^ 63.

(** The three field names of the update document differ. *)
Definition distinctNames (n : dl.names) : Prop :=
  dl.FieldPolicyRevisionIdx n <> dl.FieldPolicyCoordinatorIdx n
  /\ dl.FieldPolicyRevisionIdx n <> dl.FieldUpdatedAt n
  /\ dl.FieldPolicyCoordinatorIdx n <> dl.FieldUpdatedAt n.

(** The pair an update operation carries: the two numbers its body holds,
    under "doc", in the revision field and in the coordinator field. *)
Definition docPair (n : dl.names) (op : bulk.BulkOp) : option (Z * Z) :=
  match bulk.Body op !! "doc" with
  | Some doc =>
      match doc !! dl.FieldPolicyRevisionIdx n,
            doc !! dl.FieldPolicyCoordinatorIdx n with
      | Some (VInt r), Some (VInt c) => Some (r, c)
      | _, _ => None
      end
  | None => None
  end.

(** ** Sample collaborators and inputs *)

Definition sampleNames : dl.names :=
  dl.mkNames ".fleet-agents" "policy_revision_idx" "policy_coordinator_idx"
             "updated_at".

Definition policyP : string := "6ba7b810-9dad-41d1-80b4-00c04fd430c8".
Definition policyOther : string := "7c9e6679-7425-40de-944b-e07fc1f90ae7".

(** "policy:<p>:<r>:<c>" *)
Definition policyAck (p r c : string) : string :=
  "policy:" ++ p ++ ":" ++ r ++ ":" ++ c.

Definition agentA1 (rev coord : Z) : Agent := mkAgent "A1" policyP rev coord.

Definition ack (actionId agentId : string) : Event :=
  mkEvent "ACTION_RESULT" "ACKNOWLEDGED" "2020-10-31T00:00:00Z" actionId agentId.

(** An empty cache, a store that knows no action and accepts every update,
    and a request of agent A1 whose decoded body is [events]. *)
Definition sampleEnv (events : list Event) : Env :=
  mkEnv sampleNames "agent-action"
        (fun _ _ => None)
        (fun _ _ _ => inl (OtherError "not found"))
        (fun _ _ _ => None)
        (fun _ => time.mkTime 1604102400 3600)
        (fun _ id => inr (mkAgent id policyP 1 0))
        (fun _ => inr "")
        (fun _ => inr (mkAckRequest events))
        (fun _ _ => None).

(** The same, for a client that went away: the body read is cancelled. *)
Definition droppedEnv : Env :=
  mkEnv sampleNames "agent-action"
        (fun _ _ => None)
        (fun _ _ _ => inl (OtherError "not found"))
        (fun _ _ _ => None)
        (fun _ => time.mkTime 1604102400 3600)
        (fun _ id => inr (mkAgent id policyP 1 0))
        (fun _ => inl context_Canceled)
        (fun _ => inr (mkAckRequest []))
        (fun _ _ => None).

(** A cache that holds the action "a1". *)
Definition cachedEnv : Env :=
  mkEnv sampleNames "agent-action"
        (fun _ id => if String.eqb id "a1"
                     then Some (mkAction "a1" "POLICY_CHANGE" "") else None)
        (fun _ _ _ => inl (OtherError "not found"))
        (fun _ _ _ => None)
        (fun _ => time.mkTime 1604102400 3600)
        (fun _ id => inr (mkAgent id policyP 1 0))
        (fun _ => inr "")
        (fun _ => inr (mkAckRequest []))
        (fun _ _ => None).

(** ** Vocabulary of the further properties *)

(** [strings.Count(s, sep)] for a separator of one byte. *)
Fixpoint Count (s : string) (sep : ascii) : nat :=
  match s with
  | EmptyString => O
  | String c r => ((if Ascii.eqb c sep then 1 else 0) + Count r sep)%nat
  end.

(** The agent record once the pair [p] has been applied to it. *)
Definition withPair (agent : Agent) (p : Z * Z) : Agent :=
  mkAgent (Id agent) (PolicyId agent) (fst p) (snd p).

(** The identifiers the cache was probed for, in order. *)
Definition probes (l : Trace) : list string :=
  flat_map (fun e => match e with CacheGetAction id => [id] | _ => [] end) l.

(** The action ids of the events that are no policy acknowledgment. *)
Definition nonPolicyIds (events : list Event) : list string :=
  map ActionId
      (List.filter
         (fun ev => negb (strings.HasPrefix (ActionId ev) "policy:")) events).

(** An effect [_handleAckEvents] can have: resolution or the update. *)
Definition ackEffect (e : Effect) : Prop :=
  match e with
  | CacheGetAction _ | SavedRead _ _ | BulkMUpdate _ _ => True
  | _ => False
  end.

(** A store that refuses every update. *)
Definition refusingEnv : Env :=
  mkEnv sampleNames "agent-action"
        (fun _ _ => None)
        (fun _ _ _ => inl (OtherError "not found"))
        (fun _ _ _ => Some (OtherError "es unavailable"))
        (fun _ => time.mkTime 1604102400 3600)
        (fun _ id => inr (mkAgent id policyP 1 0))
        (fun _ => inr "")
        (fun _ => inr (mkAckRequest [ack (policyAck policyP "2" "0") ""]))
        (fun _ _ => None).

(** ** The reconciler's loop *)

Ltac lex :=
  unfold pair_le, pair_lt, actionPair, agentPair in *; simpl in *; lia.

Lemma pair_lt_le_trans p q r : pair_lt p q -> pair_le q r -> pair_lt p r.
Proof. destruct p, q, r. lex. Qed.

Lemma pair_lt_irrefl p : ~ pair_lt p p.
Proof. destruct p. lex. Qed.

Lemma pair_le_antisym p q : pair_le p q -> pair_le q p -> p = q.
Proof. destruct p, q. intros H1 H2. f_equal; lex. Qed.

Lemma beats_iff agent action r c :
  beats agent action r c = true
  <-> policyId action = PolicyId agent /\ pair_lt (r, c) (actionPair action).
Proof.
  unfold beats.
  rewrite andb_true_iff, orb_true_iff, andb_true_iff, String.eqb_eq.
  rewrite !Z.gtb_lt, Z.eqb_eq. unfold pair_lt, actionPair. simpl.
  intuition lia.
Qed.

(** A candidate that does not parse, or that names another policy, leaves
    the loop's variables as they are. *)
Lemma pick_skip agent st a :
  (forall action, parsePolicyAction a = Some action ->
                  policyId action <> PolicyId agent) ->
  pick agent st a = st.
Proof.
  intros H. destruct st as [[f r] c]. unfold pick.
  destruct (parsePolicyAction a) as [action|] eqn:Hp; [|reflexivity].
  destruct (beats agent action r c) eqn:Hb; [|reflexivity].
  apply beats_iff in Hb. destruct Hb as [Hid _].
  exfalso. exact (H action eq_refl Hid).
Qed.

Lemma fold_pick_skip agent a l1 l2 st :
  (forall action, parsePolicyAction a = Some action ->
                  policyId action <> PolicyId agent) ->
  fold_left (pick agent) (l1 ++ a :: l2)%list st
  = fold_left (pick agent) (l1 ++ l2)%list st.
Proof.
  intros H. rewrite !fold_left_app. simpl. now rewrite pick_skip.
Qed.

Lemma settled_pick agent seen st a :
  settled agent seen st -> settled agent (seen ++ [a])%list (pick agent st a).
Proof.
  destruct st as [[f r] c]. intros [Hmax Hf]. unfold pick.
  assert (Hle : pair_le (agentPair agent) (r, c)).
  { destruct f.
    - destruct Hf as (b & _ & act & _ & _ & _ & Hlt). lex.
    - rewrite Hf. lex. }
  destruct (parsePolicyAction a) as [action|] eqn:Hp.
  - destruct (beats agent action r c) eqn:Hb.
    + apply beats_iff in Hb. destruct Hb as [Hid Hlt]. split.
      * intros b act Hin Hpb Hidb. apply in_app_or in Hin.
        destruct Hin as [Hin | [<- | []]].
        -- specialize (Hmax b act Hin Hpb Hidb). lex.
        -- rewrite Hp in Hpb. injection Hpb as <-. lex.
      * exists a. split; [apply in_or_app; right; now left|].
        exists action. repeat split; try assumption. lex.
    + split.
      * intros b act Hin Hpb Hidb. apply in_app_or in Hin.
        destruct Hin as [Hin | [<- | []]]; [now apply (Hmax b act)|].
        rewrite Hp in Hpb. injection Hpb as <-.
        assert (Hnb : ~ pair_lt (r, c) (actionPair action)).
        { intros Hlt. assert (beats agent action r c = true) as Ht
            by (apply beats_iff; now split).
          congruence. }
        lex.
      * destruct f; [|exact Hf].
        destruct Hf as (b & Hin & Hel). exists b.
        split; [apply in_or_app; now left | exact Hel].
  - split.
    + intros b act Hin Hpb Hidb. apply in_app_or in Hin.
      destruct Hin as [Hin | [<- | []]]; [now apply (Hmax b act)|congruence].
    + destruct f; [|exact Hf].
      destruct Hf as (b & Hin & Hel). exists b.
      split; [apply in_or_app; now left | exact Hel].
Qed.

Lemma settled_fold agent l seen st :
  settled agent seen st ->
  settled agent (seen ++ l)%list (fold_left (pick agent) l st).
Proof.
  revert seen st. induction l as [|a l IH]; intros seen st H; simpl.
  - now rewrite app_nil_r.
  - replace (seen ++ a :: l)%list with ((seen ++ [a]) ++ l)%list
      by (now rewrite <- app_assoc).
    apply IH. now apply settled_pick.
Qed.

Lemma scan_settled agent actionIds : settled agent actionIds (scan agent actionIds).
Proof.
  apply (settled_fold agent actionIds []). simpl. split; [intros ? ? []|reflexivity].
Qed.

(** Nothing found: no candidate is eligible, and the pair is the agent's. *)
Lemma scan_none agent actionIds r c :
  scan agent actionIds = (false, r, c) ->
  (r, c) = agentPair agent
  /\ forall a p, In a actionIds -> ~ eligible agent a p.
Proof.
  intros Hs. pose proof (scan_settled agent actionIds) as H.
  rewrite Hs in H. destruct H as [Hmax Heq]. split; [exact Heq|].
  intros a p Hin (action & Hp & Hid & Hpair & Hlt).
  specialize (Hmax a action Hin Hp Hid). rewrite Hpair, Heq in Hmax.
  exact (pair_lt_irrefl _ (pair_lt_le_trans _ _ _ Hlt Hmax)).
Qed.

(** Something found: the pair is that of an eligible candidate and no
    eligible candidate has a greater one. *)
Lemma scan_some agent actionIds r c :
  scan agent actionIds = (true, r, c) ->
  (exists a, In a actionIds /\ eligible agent a (r, c))
  /\ forall a p, In a actionIds -> eligible agent a p -> pair_le p (r, c).
Proof.
  intros Hs. pose proof (scan_settled agent actionIds) as H.
  rewrite Hs in H. destruct H as [Hmax Hex]. split; [exact Hex|].
  intros a p Hin (action & Hp & Hid & Hpair & _). rewrite <- Hpair.
  now apply (Hmax a action).
Qed.

Lemma scan_found agent actionIds a p :
  In a actionIds -> eligible agent a p ->
  exists r c, scan agent actionIds = (true, r, c).
Proof.
  intros Hin Hel. destruct (scan agent actionIds) as [[f r] c] eqn:Hs.
  destruct f; [now exists r, c|].
  destruct (scan_none _ _ _ _ Hs) as [_ Hno]. exfalso. exact (Hno a p Hin Hel).
Qed.

(** The loop's result depends on the candidates, not on their order. *)
Lemma scan_perm agent l l' : Permutation l l' -> scan agent l = scan agent l'.
Proof.
  intros HP.
  destruct (scan agent l) as [[f r] c] eqn:Hl,
           (scan agent l') as [[f' r'] c'] eqn:Hl'.
  destruct f, f'.
  - destruct (scan_some _ _ _ _ Hl) as [(a & Ha & Hea) Hm].
    destruct (scan_some _ _ _ _ Hl') as [(b & Hb & Heb) Hm'].
    assert (Hab : pair_le (r, c) (r', c'))
      by (apply (Hm' a); [now apply (Permutation_in _ HP)|assumption]).
    assert (Hba : pair_le (r', c') (r, c))
      by (apply (Hm b); [now apply (Permutation_in _ (Permutation_sym HP))|assumption]).
    pose proof (pair_le_antisym _ _ Hab Hba) as Heq. now inversion Heq.
  - destruct (scan_some _ _ _ _ Hl) as [(a & Ha & Hea) _].
    destruct (scan_none _ _ _ _ Hl') as [_ Hno].
    exfalso. apply (Hno a (r, c)); [now apply (Permutation_in _ HP)|assumption].
  - destruct (scan_some _ _ _ _ Hl') as [(b & Hb & Heb) _].
    destruct (scan_none _ _ _ _ Hl) as [_ Hno].
    exfalso. apply (Hno b (r', c'));
      [now apply (Permutation_in _ (Permutation_sym HP))|assumption].
  - destruct (scan_none _ _ _ _ Hl) as [H1 _], (scan_none _ _ _ _ Hl') as [H2 _].
    rewrite <- H2 in H1. now inversion H1.
Qed.

(** [_handlePolicyChange] in one step: no effect when nothing was found,
    otherwise the one update, whose outcome is the call's. *)
Lemma handlePolicyChange_run E agent actionIds t :
  _handlePolicyChange E agent actionIds t =
  match scan agent actionIds with
  | (true, r, c) =>
      let now := time_Now E t in
      (match bulker_MUpdate E t [policyUpdateOp E agent (r, c) now]
                            [bulk.WithRefresh] with
       | Some e => Err e
       | None => Ok tt
       end,
       (t ++ [policyUpdate E agent (r, c) now])%list)
  | (false, _, _) => (Ok tt, t)
  end.
Proof.
  unfold _handlePolicyChange, scan.
  destruct (fold_left _ _ _) as [[f r] c]. destruct f; [|reflexivity].
  unfold Now, MUpdate, bind, history, emit, ret, check, policyUpdate,
    policyUpdateOp. simpl.
  destruct (bulker_MUpdate E t _ _); reflexivity.
Qed.

Lemma handlePolicyChange_skip E agent a l1 l2 t :
  (forall action, parsePolicyAction a = Some action ->
                  policyId action <> PolicyId agent) ->
  _handlePolicyChange E agent (l1 ++ a :: l2)%list t
  = _handlePolicyChange E agent (l1 ++ l2)%list t.
Proof.
  intros H. rewrite !handlePolicyChange_run. unfold scan.
  now rewrite fold_pick_skip.
Qed.

Lemma handlePolicyChange_none E agent actionIds t :
  (forall a p, In a actionIds -> ~ eligible agent a p) ->
  _handlePolicyChange E agent actionIds t = (Ok tt, t).
Proof.
  intros Hno. rewrite handlePolicyChange_run.
  destruct (scan agent actionIds) as [[f r] c] eqn:Hs.
  destruct f; [|reflexivity].
  destruct (scan_some _ _ _ _ Hs) as [(a & Hin & Hel) _].
  exfalso. exact (Hno a _ Hin Hel).
Qed.

(** The update built for the pair [p] carries [p], the field names being
    distinct: the stamp overwrites neither number. *)
Lemma policyUpdateOp_docPair E agent p now :
  distinctNames (names E) ->
  docPair (names E) (policyUpdateOp E agent p now) = Some p.
Proof.
  intros (H1 & H2 & H3). unfold docPair, policyUpdateOp, fields.
  cbn [bulk.Body]. rewrite lookup_singleton_eq.
  rewrite (lookup_insert_ne _ (dl.FieldUpdatedAt (names E))
             (dl.FieldPolicyRevisionIdx (names E))) by congruence.
  rewrite lookup_insert_eq.
  rewrite (lookup_insert_ne _ (dl.FieldUpdatedAt (names E))
             (dl.FieldPolicyCoordinatorIdx (names E))) by congruence.
  rewrite (lookup_insert_ne _ (dl.FieldPolicyRevisionIdx (names E))
             (dl.FieldPolicyCoordinatorIdx (names E))) by congruence.
  rewrite lookup_insert_eq. now destruct p.
Qed.

Lemma sampleNames_distinct : distinctNames sampleNames.
Proof. repeat split; discriminate. Qed.

(** ** Properties of the reconciler *)

(** C1. A candidate beats the incumbent exactly when it names the agent's
    policy and its pair is lexicographically strictly greater.
    [_handlePolicyChange] either finds no candidate beyond the agent's pair,
    does nothing and returns success, or issues one update on the agent's
    id whose document holds, in its revision and coordinator fields, the
    pair of a candidate of the batch that is strictly beyond the agent's
    pair: the pair never moves backward.  In particular, when every
    candidate for the agent's policy ties with the agent's pair or is below
    it, the call writes nothing and returns success. *)
Theorem reconciler_only_moves_forward
  (E : Env) (agent : Agent) (actionIds : list string) (t : Trace) :
  (forall action r c,
      beats agent action r c = true
      <-> policyId action = PolicyId agent
          /\ (revIdx action > r \/ (revIdx action = r /\ coordIdx action > c)))
  /\ (((forall a p, In a actionIds -> ~ eligible agent a p)
       /\ _handlePolicyChange E agent actionIds t = (Ok tt, t))
      \/ (exists p op,
             pair_lt (agentPair agent) p
             /\ (exists a, In a actionIds /\ eligible agent a p)
             /\ snd (_handlePolicyChange E agent actionIds t)
                = (t ++ [BulkMUpdate [op] [bulk.WithRefresh]])%list
             /\ op = policyUpdateOp E agent p (time_Now E t)
             /\ bulk.OpId op = Id agent
             /\ (distinctNames (names E) -> docPair (names E) op = Some p)))
  /\ ((forall a action,
          In a actionIds -> parsePolicyAction a = Some action ->
          policyId action = PolicyId agent ->
          pair_le (actionPair action) (agentPair agent)) ->
      _handlePolicyChange E agent actionIds t = (Ok tt, t)).
Proof.
  split; [|split].
  - intros action r c. rewrite beats_iff. unfold pair_lt, actionPair. simpl.
    intuition lia.
  - rewrite handlePolicyChange_run.
    destruct (scan agent actionIds) as [[f r] c] eqn:Hs. destruct f.
    + right. exists (r, c), (policyUpdateOp E agent (r, c) (time_Now E t)).
      destruct (scan_some _ _ _ _ Hs) as [(a & Hin & Hel) _].
      split; [destruct Hel as (_ & _ & _ & _ & Hlt); exact Hlt|].
      split; [now exists a|]. split; [reflexivity|].
      split; [reflexivity|]. split; [reflexivity|].
      apply policyUpdateOp_docPair.
    + left. destruct (scan_none _ _ _ _ Hs) as [_ Hno]. now split.
  - intros Hle. apply handlePolicyChange_none.
    intros a p Hin (action & Hp & Hid & <- & Hlt).
    exact (pair_lt_irrefl _ (pair_lt_le_trans _ _ _ Hlt (Hle a action Hin Hp Hid))).
Qed.

(** Agent A1 at (1,0) acknowledges the pair it is at: nothing is written.
    It acknowledges (2,0): the document written holds 2 and 0. *)
Lemma reconciler_only_moves_forward_witness :
  _handlePolicyChange (sampleEnv []) (agentA1 1 0) [policyAck policyP "1" "0"] []
  = (Ok tt, [])
  /\ exists op,
       snd (_handlePolicyChange (sampleEnv []) (agentA1 1 0)
              [policyAck policyP "2" "0"] [])
       = [BulkMUpdate [op] [bulk.WithRefresh]]
       /\ bulk.OpId op = "A1"
       /\ docPair sampleNames op = Some (2, 0).
Proof.
  split.
  - apply (reconciler_only_moves_forward (sampleEnv []) (agentA1 1 0)
             [policyAck policyP "1" "0"] []).
    intros a action [<- | []] Hp _.
    vm_compute in Hp. injection Hp as <-.
    unfold pair_le, actionPair, agentPair. simpl. lia.
  - destruct (reconciler_only_moves_forward (sampleEnv []) (agentA1 1 0)
                [policyAck policyP "2" "0"] [])
      as (_ & [[Hno _] | (p & op & _ & (a & Hin & Hel) & Hsnd & _ & Hid & Hdoc)]
          & _).
    + exfalso. apply (Hno (policyAck policyP "2" "0") (2, 0)).
      * left. reflexivity.
      * exists (mkPolicyAction policyP 2 0).
        split; [vm_compute; reflexivity|].
        split; [reflexivity|]. split; [reflexivity|].
        unfold pair_lt, agentPair. simpl. lia.
    + exists op. split; [exact Hsnd|]. split; [exact Hid|].
      refine (eq_trans (Hdoc sampleNames_distinct) _). f_equal.
      destruct Hin as [<- | []]. destruct Hel as (action & Hp & _ & <- & _).
      vm_compute in Hp. injection Hp as <-. reflexivity.
Defined.

(** C2. When some candidate of the batch is eligible, [_handlePolicyChange]
    writes one update whose document holds, in its revision and coordinator
    fields, the pair of an eligible candidate of the batch that no eligible
    candidate exceeds, the lexicographic maximum; and the call does the
    same on every reordering of the batch. *)
Theorem reconciler_writes_maximum
  (E : Env) (agent : Agent) (actionIds : list string) (t : Trace)
  (a : string) (p : Z * Z) :
  In a actionIds -> eligible agent a p ->
  exists w op,
    snd (_handlePolicyChange E agent actionIds t)
    = (t ++ [BulkMUpdate [op] [bulk.WithRefresh]])%list
    /\ op = policyUpdateOp E agent w (time_Now E t)
    /\ (distinctNames (names E) -> docPair (names E) op = Some w)
    /\ (exists b, In b actionIds /\ eligible agent b w)
    /\ (forall b q, In b actionIds -> eligible agent b q -> pair_le q w)
    /\ (forall l', Permutation actionIds l' ->
                   _handlePolicyChange E agent l' t
                   = _handlePolicyChange E agent actionIds t).
Proof.
  intros Hin Hel.
  destruct (scan_found _ _ _ _ Hin Hel) as (r & c & Hs).
  destruct (scan_some _ _ _ _ Hs) as [Hex Hmax].
  exists (r, c), (policyUpdateOp E agent (r, c) (time_Now E t)).
  split; [rewrite handlePolicyChange_run, Hs; reflexivity|].
  split; [reflexivity|]. split; [apply policyUpdateOp_docPair|].
  split; [exact Hex|]. split; [exact Hmax|].
  intros l' HP. rewrite !handlePolicyChange_run.
  now rewrite (scan_perm agent actionIds l' HP).
Qed.

(** The batch [(3,0); (3,5); (2,9)] against an agent at (3,1): the document
    written holds 3 and 5. *)
Lemma reconciler_writes_maximum_witness :
  exists op,
    snd (_handlePolicyChange (sampleEnv []) (agentA1 3 1)
           [policyAck policyP "3" "0"; policyAck policyP "3" "5";
            policyAck policyP "2" "9"] [])
    = [BulkMUpdate [op] [bulk.WithRefresh]]
    /\ docPair sampleNames op = Some (3, 5)
    /\ (forall l', Permutation [policyAck policyP "3" "0";
                                policyAck policyP "3" "5";
                                policyAck policyP "2" "9"] l' ->
                   _handlePolicyChange (sampleEnv []) (agentA1 3 1) l' []
                   = _handlePolicyChange (sampleEnv []) (agentA1 3 1)
                       [policyAck policyP "3" "0"; policyAck policyP "3" "5";
                        policyAck policyP "2" "9"] []).
Proof.
  destruct (reconciler_writes_maximum (sampleEnv []) (agentA1 3 1)
              [policyAck policyP "3" "0"; policyAck policyP "3" "5";
               policyAck policyP "2" "9"] []
              (policyAck policyP "3" "5") (3, 5))
    as (w & op & Hsnd & _ & Hdoc & (b & Hin & Hel) & _ & Hperm).
  - simpl. right. left. reflexivity.
  - exists (mkPolicyAction policyP 3 5).
    split; [vm_compute; reflexivity|].
    split; [reflexivity|]. split; [reflexivity|].
    unfold pair_lt, agentPair. simpl. lia.
  - exists op. split; [exact Hsnd|]. split; [|exact Hperm].
    refine (eq_trans (Hdoc sampleNames_distinct) _). f_equal.
    destruct Hel as (action & Hp & _ & <- & Hlt).
    destruct Hin as [<- | [<- | [<- | []]]];
      vm_compute in Hp; injection Hp as <-;
      unfold pair_lt, agentPair, actionPair in Hlt; simpl in Hlt;
      first [reflexivity | exfalso; lia].
Defined.

(** The scan of that batch settles on (3,5), not on the first candidate. *)
Example scan_picks_3_5 :
  scan (agentA1 3 1)
       [policyAck policyP "3" "0"; policyAck policyP "3" "5";
        policyAck policyP "2" "9"] = (true, 3, 5).
Proof. vm_compute. reflexivity. Qed.

(** C5. A candidate that parses but names a policy other than the agent's
    leaves the loop's variables unchanged whatever its pair is, is eligible
    with no pair, and can be dropped from the batch without changing what
    [_handlePolicyChange] does. *)
Theorem other_policy_candidate_ignored
  (E : Env) (agent : Agent) (a : string) (action : policyAction)
  (l1 l2 : list string) (st : bool * Z * Z) (t : Trace) :
  parsePolicyAction a = Some action ->
  policyId action <> PolicyId agent ->
  pick agent st a = st
  /\ (forall p, ~ eligible agent a p)
  /\ _handlePolicyChange E agent (l1 ++ a :: l2)%list t
     = _handlePolicyChange E agent (l1 ++ l2)%list t
  /\ _handlePolicyChange E agent [a] t = (Ok tt, t).
Proof.
  intros Hp Hne.
  assert (Hskip : forall action', parsePolicyAction a = Some action' ->
                                  policyId action' <> PolicyId agent)
    by (intros action' Hp'; rewrite Hp in Hp'; now injection Hp' as <-).
  split; [now apply pick_skip|]. split; [|split].
  - intros p (action' & Hp' & Hid & _). exact (Hskip action' Hp' Hid).
  - now apply handlePolicyChange_skip.
  - pose proof (handlePolicyChange_skip E agent a [] [] t Hskip) as H.
    simpl in H. rewrite H. reflexivity.
Qed.

Lemma other_policy_candidate_ignored_witness :
  pick (agentA1 1 0) (false, 1, 0) (policyAck policyOther "9" "9") = (false, 1, 0)
  /\ (forall p, ~ eligible (agentA1 1 0) (policyAck policyOther "9" "9") p)
  /\ _handlePolicyChange (sampleEnv []) (agentA1 1 0)
       ([policyAck policyP "2" "0"] ++ policyAck policyOther "9" "9" :: [])%list []
     = _handlePolicyChange (sampleEnv []) (agentA1 1 0)
         ([policyAck policyP "2" "0"] ++ [])%list []
  /\ _handlePolicyChange (sampleEnv []) (agentA1 1 0)
       [policyAck policyOther "9" "9"] [] = (Ok tt, []).
Proof.
  apply (other_policy_candidate_ignored (sampleEnv []) (agentA1 1 0)
           (policyAck policyOther "9" "9") (mkPolicyAction policyOther 9 9)).
  - vm_compute. reflexivity.
  - vm_compute. discriminate.
Defined.

(** C10. The policy id of a parsed identifier is segment 1 as it was
    written, not a canonical form of it.  So for an identifier of four
    segments whose segment 1 is another text of the UUID the agent's policy
    id denotes (both decode to the same UUID, the strings differ): it
    parses as soon as its tag and its two numbers are well formed, with
    segment 1 as the policy id; and in any case it is eligible with no
    pair, leaves the loop's variables unchanged, can be dropped from any
    batch without changing what [_handlePolicyChange] does, and alone
    triggers no write. *)
Theorem alternative_uuid_text_never_eligible
  (E : Env) (agent : Agent) (a s0 s1 s2 s3 : string) (u : uuid.UUID)
  (l1 l2 : list string) (t : Trace) :
  strings.Split a ":" = [s0; s1; s2; s3] ->
  uuid.FromString s1 = Some u ->
  uuid.FromString (PolicyId agent) = Some u ->
  s1 <> PolicyId agent ->
  (forall r c,
      s0 = "policy" -> strconv.Atoi s2 = Some r -> strconv.Atoi s3 = Some c ->
      parsePolicyAction a = Some (mkPolicyAction s1 r c))
  /\ (forall action, parsePolicyAction a = Some action -> policyId action = s1)
  /\ (forall p, ~ eligible agent a p)
  /\ (forall st, pick agent st a = st)
  /\ _handlePolicyChange E agent (l1 ++ a :: l2)%list t
     = _handlePolicyChange E agent (l1 ++ l2)%list t
  /\ _handlePolicyChange E agent [a] t = (Ok tt, t).
Proof.
  intros HS Hu _ Hne.
  assert (Hid : forall action,
             parsePolicyAction a = Some action -> policyId action = s1).
  { intros action. unfold parsePolicyAction. rewrite HS, Hu.
    destruct (negb (String.eqb s0 "policy")); [discriminate|].
    destruct (strconv.Atoi s2); [|discriminate].
    destruct (strconv.Atoi s3); [|discriminate].
    now intros [= <-]. }
  assert (Hskip : forall action, parsePolicyAction a = Some action ->
                                 policyId action <> PolicyId agent).
  { intros action Hp. now rewrite (Hid action Hp). }
  split; [|split; [exact Hid|split; [|split; [|split]]]].
  - intros r c -> H2 H3. unfold parsePolicyAction. rewrite HS. simpl.
    now rewrite Hu, H2, H3.
  - intros p (action & Hp' & Heq & _). exact (Hskip action Hp' Heq).
  - intros st. now apply pick_skip.
  - now apply handlePolicyChange_skip.
  - pose proof (handlePolicyChange_skip E agent a [] [] t Hskip) as H.
    simpl in H. rewrite H. reflexivity.
Qed.

(** The agent's policy id in upper case hexadecimal digits. *)
Lemma alternative_uuid_text_never_eligible_witness :
  parsePolicyAction (policyAck "6BA7B810-9DAD-41D1-80B4-00C04FD430C8" "9" "9")
  = Some (mkPolicyAction "6BA7B810-9DAD-41D1-80B4-00C04FD430C8" 9 9)
  /\ (forall p, ~ eligible (agentA1 1 0)
                  (policyAck "6BA7B810-9DAD-41D1-80B4-00C04FD430C8" "9" "9") p)
  /\ _handlePolicyChange (sampleEnv []) (agentA1 1 0)
       [policyAck "6BA7B810-9DAD-41D1-80B4-00C04FD430C8" "9" "9"] []
     = (Ok tt, []).
Proof.
  pose proof (alternative_uuid_text_never_eligible (sampleEnv []) (agentA1 1 0)
           (policyAck "6BA7B810-9DAD-41D1-80B4-00C04FD430C8" "9" "9")
           "policy" "6BA7B810-9DAD-41D1-80B4-00C04FD430C8" "9" "9"
           [107; 167; 184; 16; 157; 173; 65; 209; 128; 180; 0; 192; 79; 212; 48; 200]
           [] [] []) as H.
  destruct H as (Hparse & _ & Hel & _ & _ & Hone).
  - vm_compute. reflexivity.
  - vm_compute. reflexivity.
  - vm_compute. reflexivity.
  - vm_compute. discriminate.
  - split; [|split; [exact Hel|exact Hone]].
    apply Hparse; vm_compute; reflexivity.
Defined.

(** ** The update document *)

Lemma isDigit_digitChar x : isDigit (time.digitChar (x mod 10)) = true.
Proof.
  pose proof (Z.mod_pos_bound x 10 ltac:(lia)) as H.
  assert (Hc : x mod 10 = 0 \/ x mod 10 = 1 \/ x mod 10 = 2 \/ x mod 10 = 3
               \/ x mod 10 = 4 \/ x mod 10 = 5 \/ x mod 10 = 6
               \/ x mod 10 = 7 \/ x mod 10 = 8 \/ x mod 10 = 9) by lia.
  repeat destruct Hc as [-> | Hc]; try reflexivity. rewrite Hc. reflexivity.
Qed.

(** A time stamp taken in UTC, in a year of four digits, is formatted as
    "dddd-dd-ddTdd:dd:ddZ". *)
Lemma Format_UTC_shape now :
  0 <= time.Year (time.UTC now) <= 9999 ->
  rfc3339UTC (time.Format_RFC3339 (time.UTC now)) = true.
Proof.
  unfold time.Format_RFC3339, time.Year, time.UTC.
  cbn [time.unixSec time.offset].
  destruct (time.civil _) as [[y m] d]. cbn [fst]. intros Hy.
  change (0 =? 0) with true. cbn iota.
  unfold time.appendInt.
  replace (y <? 0) with false by (symmetry; apply Z.ltb_ge; lia).
  rewrite (Z.abs_eq y) by lia.
  replace (y / 10 ^ Z.of_nat 4) with 0
    by (symmetry; apply Z.div_small; simpl; lia).
  change (0 =? 0) with true. cbn iota. cbv [String.append].
  cbn [time.pad]. unfold rfc3339UTC.
  cbn [list_ascii_of_string forallb]. rewrite !isDigit_digitChar.
  reflexivity.
Qed.

Lemma fields_lookup E rev coord now :
  let n := names E in
  dl.FieldPolicyRevisionIdx n <> dl.FieldPolicyCoordinatorIdx n ->
  dl.FieldPolicyRevisionIdx n <> dl.FieldUpdatedAt n ->
  dl.FieldPolicyCoordinatorIdx n <> dl.FieldUpdatedAt n ->
  dom (fields E rev coord now)
  = ({[ dl.FieldPolicyRevisionIdx n; dl.FieldPolicyCoordinatorIdx n;
        dl.FieldUpdatedAt n ]} : gset string)
  /\ size (fields E rev coord now) = 3%nat
  /\ fields E rev coord now !! dl.FieldPolicyRevisionIdx n = Some (VInt rev)
  /\ fields E rev coord now !! dl.FieldPolicyCoordinatorIdx n = Some (VInt coord)
  /\ fields E rev coord now !! dl.FieldUpdatedAt n
     = Some (VString (time.Format_RFC3339 (time.UTC now))).
Proof.
  intros n H1 H2 H3. unfold fields. fold n. repeat split.
  - rewrite !dom_insert_L, dom_empty_L. apply set_eq. intros x.
    rewrite !elem_of_union, !elem_of_singleton, elem_of_empty. tauto.
  - rewrite !map_size_insert_None, map_size_empty; [reflexivity|..];
      by simplify_map_eq.
  - by simplify_map_eq.
  - by simplify_map_eq.
  - by simplify_map_eq.
Qed.

(** C8. When some candidate is eligible, [_handlePolicyChange] adds one
    effect to the trace, whatever the number of candidates: one [MUpdate]
    of one operation, with the refresh option, on the agent's own id in the
    agents index.  Its document has three fields and no other: the
    revision index and the coordinator index, which hold the winner's
    pair, the greatest pair of an eligible candidate, and the time stamp,
    which is the current time in UTC in the RFC 3339 format,
    "dddd-dd-ddTdd:dd:ddZ" in a year of four digits. *)
Theorem reconciler_single_update
  (E : Env) (agent : Agent) (actionIds : list string) (t : Trace)
  (a : string) (p : Z * Z) :
  In a actionIds -> eligible agent a p ->
  dl.FieldPolicyRevisionIdx (names E) <> dl.FieldPolicyCoordinatorIdx (names E) ->
  dl.FieldPolicyRevisionIdx (names E) <> dl.FieldUpdatedAt (names E) ->
  dl.FieldPolicyCoordinatorIdx (names E) <> dl.FieldUpdatedAt (names E) ->
  exists rev coord doc stamp,
    snd (_handlePolicyChange E agent actionIds t)
    = (t ++ [BulkMUpdate
               [bulk.mkBulkOp (Id agent) {[ "doc" := doc ]}
                              (dl.FleetAgents (names E))]
               [bulk.WithRefresh]])%list
    /\ (exists b, In b actionIds /\ eligible agent b (rev, coord))
    /\ (forall b q, In b actionIds -> eligible agent b q ->
                    pair_le q (rev, coord))
    /\ dom doc = ({[ dl.FieldPolicyRevisionIdx (names E);
                     dl.FieldPolicyCoordinatorIdx (names E);
                     dl.FieldUpdatedAt (names E) ]} : gset string)
    /\ size doc = 3%nat
    /\ doc !! dl.FieldPolicyRevisionIdx (names E) = Some (VInt rev)
    /\ doc !! dl.FieldPolicyCoordinatorIdx (names E) = Some (VInt coord)
    /\ doc !! dl.FieldUpdatedAt (names E) = Some (VString stamp)
    /\ stamp = time.Format_RFC3339 (time.UTC (time_Now E t))
    /\ (0 <= time.Year (time.UTC (time_Now E t)) <= 9999 ->
        rfc3339UTC stamp = true).
Proof.
  intros Hin Hel H1 H2 H3.
  destruct (scan_found _ _ _ _ Hin Hel) as (r & c & Hs).
  destruct (scan_some _ _ _ _ Hs) as [Hex Hmax].
  destruct (fields_lookup E r c (time_Now E t) H1 H2 H3)
    as (Hdom & Hsize & Hr & Hc & Hu).
  exists r, c, (fields E r c (time_Now E t)),
    (time.Format_RFC3339 (time.UTC (time_Now E t))).
  rewrite handlePolicyChange_run, Hs.
  split; [reflexivity|]. split; [exact Hex|]. split; [exact Hmax|].
  repeat split; try assumption. apply Format_UTC_shape.
Qed.

(** Agent A1 at (1,0) acknowledges a change of its policy to (2,0) and a
    change of another policy to (9,9): one update, whose document holds 2,
    0 and the stamp of the sample clock in UTC. *)
Lemma reconciler_single_update_witness :
  exists doc,
    snd (_handlePolicyChange (sampleEnv []) (agentA1 1 0)
           [policyAck policyP "2" "0"; policyAck policyOther "9" "9"] [])
    = [BulkMUpdate
         [bulk.mkBulkOp "A1" {[ "doc" := doc ]} ".fleet-agents"]
         [bulk.WithRefresh]]
    /\ dom doc = ({[ "policy_revision_idx"; "policy_coordinator_idx";
                     "updated_at" ]} : gset string)
    /\ size doc = 3%nat
    /\ doc !! "policy_revision_idx" = Some (VInt 2)
    /\ doc !! "policy_coordinator_idx" = Some (VInt 0)
    /\ doc !! "updated_at" = Some (VString "2020-10-31T00:00:00Z")
    /\ rfc3339UTC "2020-10-31T00:00:00Z" = true.
Proof.
  destruct (reconciler_single_update (sampleEnv []) (agentA1 1 0)
              [policyAck policyP "2" "0"; policyAck policyOther "9" "9"] []
              (policyAck policyP "2" "0") (2, 0))
    as (rev & coord & doc & stamp & Hsnd & (b & Hin & Hel) & _
        & Hdom & Hsize & Hr & Hc & Hu & Hst & Hshape).
  - simpl. left. reflexivity.
  - exists (mkPolicyAction policyP 2 0).
    split; [vm_compute; reflexivity|].
    split; [reflexivity|]. split; [reflexivity|].
    unfold pair_lt, agentPair. simpl. lia.
  - discriminate.
  - discriminate.
  - discriminate.
  - assert (Hpair : (rev, coord) = (2, 0)).
    { destruct Hel as (action & Hp & Hid & Heq & _).
      destruct Hin as [<- | [<- | []]]; vm_compute in Hp; injection Hp as <-.
      - symmetry. exact Heq.
      - discriminate Hid. }
    injection Hpair as -> ->.
    assert (Hstamp : stamp = "2020-10-31T00:00:00Z")
      by (rewrite Hst; vm_compute; reflexivity).
    exists doc. split; [exact Hsnd|]. split; [exact Hdom|].
    split; [exact Hsize|]. split; [exact Hr|]. split; [exact Hc|].
    split; [now rewrite <- Hstamp|].
    rewrite <- Hstamp. apply Hshape. vm_compute. split; discriminate.
Defined.

(** In that run the pair written is (2,0) and the stamp is the sample
    clock's 01:00 at +01:00 shown in UTC. *)
Example scenario_B_scan :
  scan (agentA1 1 0) [policyAck policyP "2" "0"; policyAck policyOther "9" "9"]
  = (true, 2, 0)
  /\ time.Format_RFC3339 (time.UTC (time_Now (sampleEnv []) []))
     = "2020-10-31T00:00:00Z".
Proof. split; vm_compute; reflexivity. Qed.

(** An acknowledgment of the pair the agent is at writes nothing. *)
Example scenario_A_tie :
  _handleAckEvents (sampleEnv []) (agentA1 1 0)
                   [ack (policyAck policyP "1" "0") ""] []
  = (Ok tt, []).
Proof. vm_compute. reflexivity. Qed.

(** ** The event loop *)

(** The loop body in one step. *)
Lemma ackEvent_run E agent m acks ev t :
  ackEvent E agent (m, acks) ev t =
  let id := ActionId ev in
  let ty := AGENT_ACTION_SAVED_OBJECT_TYPE E in
  if agentIdMismatch agent ev then (Err ErrEventAgentIdMismatch, t)
  else if strings.HasPrefix id "policy:"
  then (Ok (m, (acks ++ [id])%list), t)
  else match gCache_GetAction E t id with
       | Some action =>
           (Ok (regroup m action, acks), (t ++ [CacheGetAction id])%list)
       | None =>
           match sv_Read E (t ++ [CacheGetAction id])%list ty id with
           | inr action =>
               (Ok (regroup m action, acks),
                (t ++ [CacheGetAction id; SavedRead ty id])%list)
           | inl e =>
               (Err e, (t ++ [CacheGetAction id; SavedRead ty id])%list)
           end
       end.
Proof.
  unfold ackEvent, classify. cbv zeta.
  destruct (agentIdMismatch agent ev); [reflexivity|].
  destruct (strings.HasPrefix (ActionId ev) "policy:"); [reflexivity|].
  unfold resolve, GetAction, Read, bind, history, emit, ret, lift, fail.
  destruct (gCache_GetAction E t (ActionId ev)); [reflexivity|].
  rewrite <- app_assoc. simpl.
  destruct (sv_Read E _ _ _); reflexivity.
Qed.

(** What one turn of the loop can do: it adds effects of resolution only;
    it stops with the mismatch error, adding nothing, or with the error of
    the read it just made; and it sets a policy acknowledgment aside. *)
Lemma ackEvent_sound E agent st ev t r t' :
  ackEvent E agent st ev t = (r, t') ->
  exists added,
    t' = (t ++ added)%list
    /\ Forall resolutionEffect added
    /\ match r with
       | Err e =>
           (e = ErrEventAgentIdMismatch /\ agentIdMismatch agent ev = true)
           \/ (agentIdMismatch agent ev = false /\ failedRead E e t')
       | Ok st' =>
           agentIdMismatch agent ev = false
           /\ snd st' = (snd st ++ policyAcksOf [ev])%list
       end.
Proof.
  destruct st as [m acks]. rewrite ackEvent_run. cbv zeta.
  unfold policyAcksOf. simpl.
  destruct (agentIdMismatch agent ev).
  { intros [= <- <-]. exists []. rewrite app_nil_r. auto. }
  destruct (strings.HasPrefix (ActionId ev) "policy:") eqn:Hpre.
  { intros [= <- <-]. exists []. rewrite app_nil_r. simpl. auto. }
  destruct (gCache_GetAction E t (ActionId ev)).
  { intros [= <- <-]. eexists. split; [reflexivity|]. split.
    - constructor; [exact Hpre|constructor].
    - simpl. now rewrite app_nil_r. }
  destruct (sv_Read E _ _ _) as [e|action] eqn:Hread; intros [= <- <-];
    (eexists; split; [reflexivity|]; split;
     [ repeat constructor; exact Hpre |]).
  - right. split; [reflexivity|].
    exists (t ++ [CacheGetAction (ActionId ev)])%list, (ActionId ev).
    split; [now rewrite <- app_assoc | exact Hread].
  - simpl. now rewrite app_nil_r.
Qed.

Lemma ackLoop_app E agent pre post st t :
  ackLoop E agent (pre ++ post)%list st t =
  match ackLoop E agent pre st t with
  | (Ok st1, t1) => ackLoop E agent post st1 t1
  | (Err e, t1) => (Err e, t1)
  end.
Proof.
  revert st t. induction pre as [|ev pre IH]; intros st t; [reflexivity|].
  simpl. unfold bind.
  destruct (ackEvent E agent st ev t) as [[st'|e] t']; [apply IH|reflexivity].
Qed.

Lemma policyAcksOf_cons ev events :
  policyAcksOf (ev :: events) = (policyAcksOf [ev] ++ policyAcksOf events)%list.
Proof.
  unfold policyAcksOf. simpl.
  destruct (strings.HasPrefix (ActionId ev) "policy:"); reflexivity.
Qed.

(** The same for the whole loop: a run that ends well met no mismatch and
    set aside the policy acknowledgments, in order. *)
Lemma ackLoop_sound E agent events st t r t' :
  ackLoop E agent events st t = (r, t') ->
  exists added,
    t' = (t ++ added)%list
    /\ Forall resolutionEffect added
    /\ match r with
       | Err e => e = ErrEventAgentIdMismatch \/ failedRead E e t'
       | Ok st' =>
           Forall (fun ev => agentIdMismatch agent ev = false) events
           /\ snd st' = (snd st ++ policyAcksOf events)%list
       end.
Proof.
  revert st t. induction events as [|ev events IH]; intros st t; simpl.
  - intros [= <- <-]. exists []. rewrite !app_nil_r.
    repeat split; constructor.
  - unfold bind.
    destruct (ackEvent E agent st ev t) as [[st1|e] t1] eqn:Hev;
      destruct (ackEvent_sound _ _ _ _ _ _ _ Hev) as (a1 & -> & Hres1 & H1).
    + intros Hloop.
      destruct (IH _ _ Hloop) as (a2 & -> & Hres2 & H2).
      exists (a1 ++ a2)%list. rewrite app_assoc.
      split; [reflexivity|]. split; [now apply Forall_app|].
      destruct r as [st'|e]; [|exact H2].
      destruct H1 as [Hok Hacks], H2 as [Hall Hacks'].
      split; [now constructor|].
      now rewrite Hacks', Hacks, (policyAcksOf_cons ev events), app_assoc.
    + intros [= <- <-]. exists a1. split; [reflexivity|].
      split; [exact Hres1|]. destruct H1 as [[-> _]|[_ Hr]]; auto.
Qed.

Lemma handleAckEvents_run E agent events t :
  _handleAckEvents E agent events t =
  match ackLoop E agent events (∅, []) t with
  | (Ok st, t1) =>
      match snd st with
      | [] => (Ok tt, t1)
      | a :: acks => _handlePolicyChange E agent (a :: acks) t1
      end
  | (Err e, t1) => (Err e, t1)
  end.
Proof.
  unfold _handleAckEvents, bind.
  destruct (ackLoop E agent events (∅, []) t) as [[st|e] t1]; [|reflexivity].
  destruct (snd st); reflexivity.
Qed.

Lemma resolutionEffect_noStoreWrite added :
  Forall resolutionEffect added -> noStoreWrite added.
Proof.
  unfold noStoreWrite. induction 1 as [|e l He _ IH]; [reflexivity|].
  simpl. rewrite IH. destruct e; simpl in *; try reflexivity; contradiction.
Qed.


Lemma ackLoop_policy_only E agent events m acks t :
  Forall (fun ev => agentIdMismatch agent ev = false
                    /\ strings.HasPrefix (ActionId ev) "policy:" = true) events ->
  ackLoop E agent events (m, acks) t
  = (Ok (m, (acks ++ map ActionId events)%list), t).
Proof.
  intros H. revert acks. induction H as [|ev events [Hok Hpre] _ IH]; intros acks.
  - simpl. now rewrite app_nil_r.
  - simpl. unfold bind. rewrite ackEvent_run. cbv zeta. rewrite Hok, Hpre.
    rewrite IH. now rewrite <- app_assoc.
Qed.

(** ** Properties of the event loop *)




(** C6.  An event that passes the integrity check and
    whose action id starts with "policy:" is set aside as a candidate with
    no effect at all; no run of [_handleAckEvents] probes the cache or reads
    the saved objects for an identifier with that prefix; a candidate the
    codec refuses can be dropped from the batch of the reconciler without
    changing what it does; and a batch of events that pass the integrity
    check and carry only such candidates succeeds with no effect. *)
Theorem policy_acks_bypass_resolution (E : Env) (agent : Agent) :
  (forall ev m acks t,
      agentIdMismatch agent ev = false ->
      strings.HasPrefix (ActionId ev) "policy:" = true ->
      ackEvent E agent (m, acks) ev t
      = (Ok (m, (acks ++ [ActionId ev])%list), t))
  /\ (forall events t,
         exists added,
           snd (_handleAckEvents E agent events t) = (t ++ added)%list
           /\ Forall notPolicyResolution added)
  /\ (forall a l1 l2 t,
         parsePolicyAction a = None ->
         _handlePolicyChange E agent (l1 ++ a :: l2)%list t
         = _handlePolicyChange E agent (l1 ++ l2)%list t)
  /\ (forall events t,
         Forall (unparseablePolicyAck agent) events ->
         _handleAckEvents E agent events t = (Ok tt, t)).
Proof.
  split; [|split; [|split]].
  - intros ev m acks t Hok Hpre. rewrite ackEvent_run. cbv zeta.
    now rewrite Hok, Hpre.
  - intros events t. rewrite handleAckEvents_run.
    destruct (ackLoop E agent events (∅, []) t) as [[st|e] t1] eqn:Hloop;
      destruct (ackLoop_sound _ _ _ _ _ _ _ Hloop) as (added & -> & Hres & _).
    + assert (Hnp : Forall notPolicyResolution added).
      { eapply List.Forall_impl; [|exact Hres]. intros []; simpl; tauto. }
      destruct (snd st) as [|a acks].
      * now exists added.
      * rewrite handlePolicyChange_run.
        destruct (scan agent (a :: acks)) as [[f r] c]. destruct f.
        -- exists (added ++ [policyUpdate E agent (r, c)
                               (time_Now E (t ++ added)%list)])%list.
           simpl. split; [now rewrite app_assoc|].
           apply Forall_app. split; [exact Hnp|]. repeat constructor.
        -- now exists added.
    + exists added. split; [reflexivity|].
      eapply List.Forall_impl; [|exact Hres]. intros []; simpl; tauto.
  - intros a l1 l2 t Hp. apply handlePolicyChange_skip.
    intros action Hp'. congruence.
  - intros events t Hall. rewrite handleAckEvents_run.
    rewrite ackLoop_policy_only.
    2:{ eapply List.Forall_impl; [|exact Hall]. intros ev (H1 & H2 & _). now split. }
    simpl. destruct (map ActionId events) as [|a acks] eqn:Hmap; [reflexivity|].
    apply handlePolicyChange_none. rewrite <- Hmap.
    intros b p Hin (action & Hp & _).
    apply in_map_iff in Hin. destruct Hin as (ev & <- & Hin).
    rewrite List.Forall_forall in Hall. destruct (Hall ev Hin) as (_ & _ & Hnone).
    congruence.
Qed.

Lemma policy_acks_bypass_resolution_witness :
  ackEvent (sampleEnv []) (agentA1 1 0) (∅, []) (ack "policy:P:2:0" "A1") []
  = (Ok (∅, ([] ++ ["policy:P:2:0"])%list), [])
  /\ _handlePolicyChange (sampleEnv []) (agentA1 1 0)
       ([policyAck policyP "2" "0"] ++ "policy:P:9:9" :: [])%list []
     = _handlePolicyChange (sampleEnv []) (agentA1 1 0)
         ([policyAck policyP "2" "0"] ++ [])%list []
  /\ _handleAckEvents (sampleEnv []) (agentA1 1 0)
       [ack "policy:P:2:0" "A1"; ack "policy:" ""] []
     = (Ok tt, []).
Proof.
  pose proof (policy_acks_bypass_resolution (sampleEnv []) (agentA1 1 0))
    as (H1 & _ & H3 & H4).
  split; [|split].
  - apply H1; vm_compute; reflexivity.
  - apply H3. vm_compute. reflexivity.
  - apply H4. repeat constructor; vm_compute; reflexivity.
Defined.

(** C7. When the loop reaches an event that passes the integrity check and
    is no policy acknowledgment, it probes the cache first.  On a hit the
    probe is the only effect: no read.  On a miss one read of the saved
    objects follows, of the agent-action type and keyed by the event's
    action id.  When that read fails, its error is the result of
    [_handleAckEvents] for the whole batch, whatever events follow, and the
    run has issued no store write. *)
Theorem resolution_cache_then_store
  (E : Env) (agent : Agent) (pre : list Event) (ev : Event) (post : list Event)
  (t : Trace) (st1 : groups) (t1 : Trace) :
  ackLoop E agent pre (∅, []) t = (Ok st1, t1) ->
  agentIdMismatch agent ev = false ->
  strings.HasPrefix (ActionId ev) "policy:" = false ->
  let id := ActionId ev in
  let ty := AGENT_ACTION_SAVED_OBJECT_TYPE E in
  match gCache_GetAction E t1 id with
  | Some action =>
      ackEvent E agent st1 ev t1
      = (Ok (regroup (fst st1) action, snd st1), (t1 ++ [CacheGetAction id])%list)
  | None =>
      match sv_Read E (t1 ++ [CacheGetAction id])%list ty id with
      | inr action =>
          ackEvent E agent st1 ev t1
          = (Ok (regroup (fst st1) action, snd st1),
             (t1 ++ [CacheGetAction id; SavedRead ty id])%list)
      | inl e =>
          _handleAckEvents E agent (pre ++ ev :: post)%list t
          = (Err e, (t1 ++ [CacheGetAction id; SavedRead ty id])%list)
          /\ exists added,
               (t1 ++ [CacheGetAction id; SavedRead ty id])%list = (t ++ added)%list
               /\ noStoreWrite added
      end
  end.
Proof.
  intros Hpre Hok Hnp id ty. destruct st1 as [m acks].
  pose proof (ackEvent_run E agent m acks ev t1) as Hrun. cbv zeta in Hrun.
  rewrite Hok, Hnp in Hrun. fold id ty in Hrun. simpl fst. simpl snd.
  destruct (gCache_GetAction E t1 id); [exact Hrun|].
  destruct (sv_Read E _ ty id) as [e|action]; [|exact Hrun].
  split.
  - rewrite handleAckEvents_run, ackLoop_app, Hpre. simpl. unfold bind.
    now rewrite Hrun.
  - destruct (ackLoop_sound _ _ _ _ _ _ _ Hpre) as (a1 & -> & Hres & _).
    exists (a1 ++ [CacheGetAction id; SavedRead ty id])%list.
    split; [now rewrite app_assoc|].
    apply resolutionEffect_noStoreWrite. apply Forall_app.
    split; [exact Hres|]. repeat constructor; exact Hnp.
Qed.

(** A miss and a failed read behind a policy acknowledgment: the batch
    fails with the read's error and the acknowledgment is not applied. *)
Lemma resolution_cache_then_store_witness :
  _handleAckEvents (sampleEnv []) (agentA1 1 0)
    ([ack (policyAck policyP "2" "0") ""]
       ++ ack "unknown-action" "A1" :: [ack "a1" ""])%list []
  = (Err (OtherError "not found"),
     ([] ++ [CacheGetAction "unknown-action";
             SavedRead "agent-action" "unknown-action"])%list)
  /\ exists added,
       ([] ++ [CacheGetAction "unknown-action";
               SavedRead "agent-action" "unknown-action"])%list
       = ([] ++ added)%list
       /\ noStoreWrite added.
Proof.
  apply (resolution_cache_then_store (sampleEnv []) (agentA1 1 0)
           [ack (policyAck policyP "2" "0") ""]
           (ack "unknown-action" "A1") [ack "a1" ""] []
           (∅, [policyAck policyP "2" "0"]) []).
  - vm_compute. reflexivity.
  - vm_compute. reflexivity.
  - vm_compute. reflexivity.
Defined.

(** A hit: the probe is the only effect. *)
Example cache_hit_no_read :
  _handleAckEvents cachedEnv (agentA1 1 0) [ack "a1" "A1"] []
  = (Ok tt, [CacheGetAction "a1"]).
Proof. vm_compute. reflexivity. Qed.

(** ** The request handler *)

(** C9, as the code has it.  When [_handleAcks] ends with
    [context.Canceled], [handleAcks] logs nothing, and it still answers
    with [http.Error] and the status 400, as it does, after logging, for
    every other error. *)
Theorem cancellation_not_logged_but_answered
  (E : Env) (id : string) (t t' : Trace) (err : error) :
  _handleAcks E id t = (Err err, t') ->
  (err = context_Canceled ->
   handleAcks E id t
   = (Ok tt, (t' ++ [HttpError "context canceled" StatusBadRequest])%list))
  /\ (err <> context_Canceled ->
      handleAcks E id t
      = (Ok tt, (t' ++ [LogError err StatusBadRequest "Fail ACK";
                        HttpError (Error err) StatusBadRequest])%list)).
Proof.
  intros H. unfold handleAcks. rewrite H. split.
  - intros ->. reflexivity.
  - intros Hne.
    destruct err; [|exfalso; now apply Hne|];
      unfold bind, emit, ret; simpl; now rewrite <- app_assoc.
Qed.

Lemma cancellation_not_logged_but_answered_witness :
  handleAcks droppedEnv "A1" []
  = (Ok tt, ([] ++ [HttpError "context canceled" StatusBadRequest])%list).
Proof.
  apply (cancellation_not_logged_but_answered droppedEnv "A1" [] []
           context_Canceled).
  - vm_compute. reflexivity.
  - reflexivity.
Defined.

(** C9 as stated fails: the request of a client that went away ends with
    [context.Canceled]; nothing is logged, but the failure is reported with
    an HTTP error response. *)
Lemma cancellation_is_reported :
  _handleAcks droppedEnv "A1" [] = (Err context_Canceled, [])
  /\ logsError (snd (handleAcks droppedEnv "A1" [])) = false
  /\ reportsFailure (snd (handleAcks droppedEnv "A1" [])) = true.
Proof. repeat split; vm_compute; reflexivity. Qed.

(** ** The codec *)

Lemma Split_not_nil s sep : strings.Split s sep <> [].
Proof.
  destruct s as [|c r]; simpl; [discriminate|].
  destruct (Ascii.eqb c sep); [discriminate|].
  destruct (strings.Split r sep); discriminate.
Qed.

(** Splitting loses nothing: the separator joins the segments back. *)
Lemma Join_Split s sep : Join (strings.Split s sep) sep = s.
Proof.
  induction s as [|c r IH]; [reflexivity|]. simpl.
  destruct (Ascii.eqb c sep) eqn:Hc.
  - apply Ascii.eqb_eq in Hc. subst c.
    pose proof (Split_not_nil r sep) as Hne.
    destruct (strings.Split r sep) as [|h tl] eqn:Hs; [contradiction|].
    simpl in IH |- *. rewrite IH. reflexivity.
  - pose proof (Split_not_nil r sep) as Hne.
    destruct (strings.Split r sep) as [|h tl] eqn:Hs; [contradiction|].
    simpl in IH |- *. destruct tl; simpl; now rewrite <- IH.
Qed.

(** No segment holds the separator. *)
Lemma Split_segments s sep :
  Forall (fun x => strings.ContainsByte x sep = false) (strings.Split s sep).
Proof.
  induction s as [|c r IH]; simpl; [repeat constructor|].
  destruct (Ascii.eqb c sep) eqn:Hc; [constructor; [reflexivity|exact IH]|].
  destruct (strings.Split r sep) as [|h tl]; [repeat constructor; simpl; now rewrite Hc|].
  inversion IH as [|? ? Hh Htl]; subst. constructor; [|exact Htl].
  simpl. now rewrite Hc, Hh.
Qed.

Lemma Split_free s sep :
  strings.ContainsByte s sep = false -> strings.Split s sep = [s].
Proof.
  induction s as [|c r IH]; simpl; [reflexivity|].
  intros H. apply orb_false_iff in H. destruct H as [Hc Hr].
  rewrite Hc, (IH Hr). reflexivity.
Qed.

Lemma Split_app a b sep :
  strings.ContainsByte a sep = false ->
  strings.Split (a ++ String sep b) sep = a :: strings.Split b sep.
Proof.
  induction a as [|c r IH]; simpl.
  - intros _. now rewrite Ascii.eqb_refl.
  - intros H. apply orb_false_iff in H. destruct H as [Hc Hr].
    rewrite Hc, (IH Hr). reflexivity.
Qed.

Lemma digits_lower s n v : 0 <= n -> strconv.digits s n = Some v -> 0 <= v.
Proof.
  revert n. induction s as [|c r IH]; simpl; intros n Hn.
  - intros [= <-]. exact Hn.
  - unfold strconv.digit.
    destruct ((48 <=? Z.of_N (N_of_ascii c)) && (Z.of_N (N_of_ascii c) <=? 57))
      eqn:Hd; [|discriminate].
    apply andb_true_iff in Hd. destruct Hd as [H1 H2].
    apply Z.leb_le in H1. apply IH. lia.
Qed.

(** A number [Atoi] accepts fits [int64]. *)
Lemma Atoi_int64 s z : strconv.Atoi s = Some z -> int64 z.
Proof.
  unfold strconv.Atoi, int64. destruct s as [|c r]; [discriminate|].
  cbv zeta.
  destruct (strconv.ParseUint _) as [un|] eqn:Hu; [|discriminate].
  assert (Hun : 0 <= un).
  { unfold strconv.ParseUint in Hu.
    destruct (if (c =? "+")%char || (c =? "-")%char then r else String c r);
      [discriminate|].
    now apply (digits_lower _ 0 un) in Hu. }
  destruct ((c =? "-")%char); simpl.
  - destruct (2 ^ 63 <? un) eqn:Hc; [discriminate|].
    apply Z.ltb_ge in Hc. intros [= <-]. lia.
  - destruct (2 ^ 63 <=? un) eqn:Hc; [discriminate|].
    apply Z.leb_gt in Hc. intros [= <-]. lia.
Qed.

(** C3, as the code has it.  [parsePolicyAction] succeeds exactly on the
    identifiers "policy:" s1 ":" s2 ":" s3 whose three segments hold no
    colon, where [uuid.FromString] accepts s1, whatever its version, and
    [Atoi] accepts s2 and s3; the result is then s1 as written and the two
    numbers, which fit 64 bits.  On every other input the result is
    [None]. *)
Theorem parsePolicyAction_spec (actionId : string) :
  (forall action,
      parsePolicyAction actionId = Some action
      <-> exists s2 s3,
          actionId = "policy:" ++ policyId action ++ ":" ++ s2 ++ ":" ++ s3
          /\ strings.ContainsByte (policyId action) ":" = false
          /\ strings.ContainsByte s2 ":" = false
          /\ strings.ContainsByte s3 ":" = false
          /\ uuid.FromString (policyId action) <> None
          /\ strconv.Atoi s2 = Some (revIdx action)
          /\ strconv.Atoi s3 = Some (coordIdx action)
          /\ int64 (revIdx action) /\ int64 (coordIdx action))
  /\ (parsePolicyAction actionId = None
      <-> ~ exists s1 s2 s3 r c,
            actionId = "policy:" ++ s1 ++ ":" ++ s2 ++ ":" ++ s3
            /\ strings.ContainsByte s1 ":" = false
            /\ strings.ContainsByte s2 ":" = false
            /\ strings.ContainsByte s3 ":" = false
            /\ uuid.FromString s1 <> None
            /\ strconv.Atoi s2 = Some r
            /\ strconv.Atoi s3 = Some c).
Proof.
  assert (Hfwd : forall action,
             parsePolicyAction actionId = Some action ->
             exists s2 s3,
               actionId = "policy:" ++ policyId action ++ ":" ++ s2 ++ ":" ++ s3
               /\ strings.ContainsByte (policyId action) ":" = false
               /\ strings.ContainsByte s2 ":" = false
               /\ strings.ContainsByte s3 ":" = false
               /\ uuid.FromString (policyId action) <> None
               /\ strconv.Atoi s2 = Some (revIdx action)
               /\ strconv.Atoi s3 = Some (coordIdx action)
               /\ int64 (revIdx action) /\ int64 (coordIdx action)).
  { intros action. unfold parsePolicyAction.
    pose proof (Join_Split actionId ":") as HJ.
    pose proof (Split_segments actionId ":") as HF.
    destruct (strings.Split actionId ":") as [|s0 [|s1 [|s2 [|s3 [|? ?]]]]];
      try discriminate.
    destruct (String.eqb s0 "policy") eqn:H0; [|discriminate].
    apply String.eqb_eq in H0. subst s0. simpl negb. cbv iota.
    destruct (uuid.FromString s1) as [u|] eqn:Hu; [|discriminate].
    destruct (strconv.Atoi s2) as [r|] eqn:H2; [|discriminate].
    destruct (strconv.Atoi s3) as [c|] eqn:H3; [|discriminate].
    intros [= <-]. simpl. exists s2, s3.
    inversion HF as [|? ? _ HF1]; subst.
    inversion HF1 as [|? ? Hs1 HF2]; subst.
    inversion HF2 as [|? ? Hs2 HF3]; subst.
    inversion HF3 as [|? ? Hs3 _]; subst.
    refine (conj _ (conj Hs1 (conj Hs2 (conj Hs3 (conj _ (conj H2 (conj H3
             (conj (Atoi_int64 _ _ H2) (Atoi_int64 _ _ H3))))))))).
    - reflexivity.
    - rewrite Hu. discriminate. }
  assert (Hbwd : forall s1 s2 s3 r c,
             actionId = "policy:" ++ s1 ++ ":" ++ s2 ++ ":" ++ s3 ->
             strings.ContainsByte s1 ":" = false ->
             strings.ContainsByte s2 ":" = false ->
             strings.ContainsByte s3 ":" = false ->
             uuid.FromString s1 <> None ->
             strconv.Atoi s2 = Some r -> strconv.Atoi s3 = Some c ->
             parsePolicyAction actionId = Some (mkPolicyAction s1 r c)).
  { intros s1 s2 s3 r c -> H1 H2 H3 Hu Hr Hc. unfold parsePolicyAction.
    change ("policy:" ++ s1 ++ ":" ++ s2 ++ ":" ++ s3)
      with ("policy" ++ String ":" (s1 ++ String ":" (s2 ++ String ":" s3))).
    rewrite (Split_app "policy"), (Split_app s1), (Split_app s2), (Split_free s3)
      by (assumption || reflexivity).
    simpl negb. cbv iota.
    destruct (uuid.FromString s1); [|contradiction]. now rewrite Hr, Hc. }
  split.
  - intros action. split; [apply Hfwd|].
    intros (s2 & s3 & Hid & H1 & H2 & H3 & Hu & Hr & Hc & _).
    rewrite (Hbwd _ _ _ _ _ Hid H1 H2 H3 Hu Hr Hc). now destruct action.
  - split.
    + intros Hnone (s1 & s2 & s3 & r & c & Hid & H1 & H2 & H3 & Hu & Hr & Hc).
      rewrite (Hbwd _ _ _ _ _ Hid H1 H2 H3 Hu Hr Hc) in Hnone. discriminate.
    + intros Hno. destruct (parsePolicyAction actionId) as [action|] eqn:Hp;
        [|reflexivity].
      exfalso. apply Hno.
      destruct (Hfwd action eq_refl)
        as (s2 & s3 & Hid & H1 & H2 & H3 & Hu & Hr & Hc & _).
      now exists (policyId action), s2, s3, (revIdx action), (coordIdx action).
Qed.

(** The codec on the identifier of the specification's example and on
    malformed ones: a segment too many, another tag, no UUID, no number. *)
Lemma parsePolicyAction_spec_witness :
  parsePolicyAction (policyAck policyP "5" "2")
  = Some (mkPolicyAction policyP 5 2).
Proof.
  apply (proj1 (parsePolicyAction_spec (policyAck policyP "5" "2"))
               (mkPolicyAction policyP 5 2)).
  exists "5", "2".
  repeat split; try (vm_compute; (reflexivity || discriminate)).
Defined.

Example parse_failures :
  parsePolicyAction (policyAck policyP "5" "2:7") = None
  /\ parsePolicyAction ("action:" ++ policyP ++ ":5:2") = None
  /\ parsePolicyAction "policy:P:5:2" = None
  /\ parsePolicyAction (policyAck policyP "5" "two") = None
  /\ parsePolicyAction (policyAck policyP "9223372036854775808" "2") = None
  /\ parsePolicyAction (policyAck policyP "-9223372036854775808" "+2")
     = Some (mkPolicyAction policyP (-9223372036854775808) 2).
Proof. repeat split; vm_compute; reflexivity. Qed.

(** C3 as stated fails on the version: the nil UUID has version 0, a
    braced UUID is no UUID text of the form 8-4-4-4-12, and the codec
    accepts both. *)
Lemma parse_accepts_other_uuid_texts :
  parsePolicyAction "policy:00000000-0000-0000-0000-000000000000:1:2"
  = Some (mkPolicyAction "00000000-0000-0000-0000-000000000000" 1 2)
  /\ option_map uuid.Version
       (uuid.FromString "00000000-0000-0000-0000-000000000000") = Some 0
  /\ parsePolicyAction "policy:{6ba7b8109dad11d180b400c04fd430c8}:1:2"
     = Some (mkPolicyAction "{6ba7b8109dad11d180b400c04fd430c8}" 1 2)
  /\ option_map uuid.Version
       (uuid.FromString "{6ba7b8109dad11d180b400c04fd430c8}") = Some 1.
Proof. repeat split; vm_compute; reflexivity. Qed.

(** ** Further properties of the reconciler *)

(** The flag [found] does not steer the loop: it only records that some
    turn replaced the pair. *)
Lemma pick_flag agent f r c a :
  pick agent (f, r, c) a
  = let '(f', r', c') := pick agent (false, r, c) a in (f || f', r', c').
Proof.
  unfold pick. destruct (parsePolicyAction a) as [action|].
  - destruct (beats agent action r c); [now rewrite orb_true_r|].
    now rewrite orb_false_r.
  - now rewrite orb_false_r.
Qed.

Lemma fold_pick_flag agent l f r c :
  fold_left (pick agent) l (f, r, c)
  = let '(f', r', c') := fold_left (pick agent) l (false, r, c) in
    (f || f', r', c').
Proof.
  revert f r c. induction l as [|a l IH]; intros f r c; cbn [fold_left].
  - now rewrite orb_false_r.
  - rewrite (pick_flag agent f r c a).
    destruct (pick agent (false, r, c) a) as [[f1 r1] c1].
    rewrite (IH (f || f1)), (IH f1).
    destruct (fold_left (pick agent) l (false, r1, c1)) as [[f2 r2] c2].
    now rewrite orb_assoc.
Qed.

(** The loop's result depends on which candidates the batch holds, not on
    how often or where. *)
Lemma scan_ext agent l l' :
  (forall a, In a l <-> In a l') -> scan agent l = scan agent l'.
Proof.
  intros HP.
  destruct (scan agent l) as [[f r] c] eqn:Hl,
           (scan agent l') as [[f' r'] c'] eqn:Hl'.
  destruct f, f'.
  - destruct (scan_some _ _ _ _ Hl) as [(a & Ha & Hea) Hm].
    destruct (scan_some _ _ _ _ Hl') as [(b & Hb & Heb) Hm'].
    assert (Hab : pair_le (r, c) (r', c'))
      by (apply (Hm' a); [now apply HP|assumption]).
    assert (Hba : pair_le (r', c') (r, c))
      by (apply (Hm b); [now apply HP|assumption]).
    pose proof (pair_le_antisym _ _ Hab Hba) as Heq. now inversion Heq.
  - destruct (scan_some _ _ _ _ Hl) as [(a & Ha & Hea) _].
    destruct (scan_none _ _ _ _ Hl') as [_ Hno].
    exfalso. apply (Hno a (r, c)); [now apply HP|assumption].
  - destruct (scan_some _ _ _ _ Hl') as [(b & Hb & Heb) _].
    destruct (scan_none _ _ _ _ Hl) as [_ Hno].
    exfalso. apply (Hno b (r', c')); [now apply HP|assumption].
  - destruct (scan_none _ _ _ _ Hl) as [H1 _], (scan_none _ _ _ _ Hl') as [H2 _].
    rewrite <- H2 in H1. now inversion H1.
Qed.

(** X1. Duplicates and positions do not matter: two batches that hold the
    same candidates make [_handlePolicyChange] do the same. *)
Theorem reconciler_depends_on_candidate_set
  (E : Env) (agent : Agent) (l l' : list string) (t : Trace) :
  (forall a, In a l <-> In a l') ->
  _handlePolicyChange E agent l t = _handlePolicyChange E agent l' t.
Proof.
  intros H. rewrite !handlePolicyChange_run. now rewrite (scan_ext agent l l' H).
Qed.

Lemma reconciler_depends_on_candidate_set_witness :
  _handlePolicyChange (sampleEnv []) (agentA1 1 0)
    [policyAck policyP "2" "0"; policyAck policyP "1" "7";
     policyAck policyP "2" "0"] []
  = _handlePolicyChange (sampleEnv []) (agentA1 1 0)
      [policyAck policyP "1" "7"; policyAck policyP "2" "0"] [].
Proof.
  apply (reconciler_depends_on_candidate_set (sampleEnv []) (agentA1 1 0)).
  intros a. simpl. tauto.
Defined.

(** X2. Replaying a batch is harmless: against the agent record that holds
    the pair the loop ended with, the same batch has no eligible candidate,
    and [_handlePolicyChange] does nothing and returns success. *)
Theorem reconciler_replay_is_noop
  (E : Env) (agent : Agent) (actionIds : list string) (t : Trace) :
  let '(_, r, c) := scan agent actionIds in
  (forall a p, In a actionIds -> ~ eligible (withPair agent (r, c)) a p)
  /\ _handlePolicyChange E (withPair agent (r, c)) actionIds t = (Ok tt, t).
Proof.
  pose proof (scan_settled agent actionIds) as H.
  destruct (scan agent actionIds) as [[f r] c]. destruct H as [Hmax _].
  assert (Hno : forall a p, In a actionIds ->
                            ~ eligible (withPair agent (r, c)) a p).
  { intros a p Hin (action & Hp & Hid & <- & Hlt).
    specialize (Hmax a action Hin Hp Hid).
    exact (pair_lt_irrefl _ (pair_lt_le_trans _ _ _ Hlt Hmax)). }
  split; [exact Hno|]. now apply handlePolicyChange_none.
Qed.

(** X3. Two batches acknowledged one after the other, the record holding
    after the first the pair its loop ended with, end with the pair the
    loop ends with on the two batches joined.  The joined batch finds a
    winner exactly when one of the two does; it then writes one update
    whose document holds that pair in its revision and coordinator fields,
    and otherwise writes nothing. *)
Theorem reconciler_batches_compose
  (E : Env) (agent : Agent) (l1 l2 : list string) (t : Trace) :
  let '(f1, r1, c1) := scan agent l1 in
  let '(f2, r2, c2) := scan (withPair agent (r1, c1)) l2 in
  scan agent (l1 ++ l2)%list = (f1 || f2, r2, c2)
  /\ snd (_handlePolicyChange E agent (l1 ++ l2)%list t)
     = (if f1 || f2
        then (t ++ [policyUpdate E agent (r2, c2) (time_Now E t)])%list
        else t)
  /\ (f1 || f2 = false ->
      _handlePolicyChange E agent (l1 ++ l2)%list t = (Ok tt, t))
  /\ (f1 || f2 = true ->
      exists op,
        snd (_handlePolicyChange E agent (l1 ++ l2)%list t)
        = (t ++ [BulkMUpdate [op] [bulk.WithRefresh]])%list
        /\ bulk.OpId op = Id agent
        /\ (distinctNames (names E) ->
            docPair (names E) op = Some (r2, c2))).
Proof.
  destruct (scan agent l1) as [[f1 r1] c1] eqn:H1.
  destruct (scan (withPair agent (r1, c1)) l2) as [[f2 r2] c2] eqn:H2.
  assert (Hs : scan agent (l1 ++ l2)%list = (f1 || f2, r2, c2)).
  { unfold scan. rewrite fold_left_app. fold (scan agent l1). rewrite H1.
    rewrite (fold_pick_flag agent l2 f1 r1 c1).
    assert (Hsame : forall l st,
               fold_left (pick (withPair agent (r1, c1))) l st
               = fold_left (pick agent) l st).
    { induction l as [|a l IH]; intros st; [reflexivity|]. simpl.
      rewrite IH. reflexivity. }
    unfold scan in H2. rewrite Hsame in H2. simpl in H2. rewrite H2.
    reflexivity. }
  split; [exact Hs|]. rewrite !handlePolicyChange_run, Hs.
  destruct (f1 || f2).
  - split; [reflexivity|]. split; [discriminate|]. intros _.
    exists (policyUpdateOp E agent (r2, c2) (time_Now E t)).
    split; [reflexivity|]. split; [reflexivity|].
    apply policyUpdateOp_docPair.
  - split; [reflexivity|]. split; [reflexivity|]. discriminate.
Qed.

(** Agent A1 at (1,0) acknowledges (2,0) and then (3,0): the two batches
    joined write a document that holds 3 and 0. *)
Lemma reconciler_batches_compose_witness :
  scan (agentA1 1 0) ([policyAck policyP "2" "0"] ++ [policyAck policyP "3" "0"])%list
  = (true, 3, 0)
  /\ exists op,
       snd (_handlePolicyChange (sampleEnv []) (agentA1 1 0)
              ([policyAck policyP "2" "0"] ++ [policyAck policyP "3" "0"])%list [])
       = [BulkMUpdate [op] [bulk.WithRefresh]]
       /\ bulk.OpId op = "A1"
       /\ docPair sampleNames op = Some (3, 0).
Proof.
  pose proof (reconciler_batches_compose (sampleEnv []) (agentA1 1 0)
                [policyAck policyP "2" "0"] [policyAck policyP "3" "0"] []) as H.
  replace (scan (agentA1 1 0) [policyAck policyP "2" "0"]) with (true, 2, 0) in H
    by (vm_compute; reflexivity).
  cbv beta iota in H.
  replace (scan (withPair (agentA1 1 0) (2, 0)) [policyAck policyP "3" "0"])
    with (true, 3, 0) in H by (vm_compute; reflexivity).
  cbv beta iota in H. destruct H as (Hscan & _ & _ & Hw).
  split; [exact Hscan|].
  destruct (Hw eq_refl) as (op & Hsnd & Hid & Hdoc).
  exists op. split; [exact Hsnd|]. split; [exact Hid|].
  exact (Hdoc sampleNames_distinct).
Defined.

(** X4. A refused update is not retried and not hidden: when a candidate is
    eligible the trace grows by the one update, and the result of
    [_handlePolicyChange] is the bulker's answer to it, its error as it is
    or success. *)
Theorem reconciler_returns_store_answer
  (E : Env) (agent : Agent) (actionIds : list string) (t : Trace)
  (a : string) (p : Z * Z) :
  In a actionIds -> eligible agent a p ->
  exists w,
    snd (_handlePolicyChange E agent actionIds t)
    = (t ++ [policyUpdate E agent w (time_Now E t)])%list
    /\ fst (_handlePolicyChange E agent actionIds t)
       = match bulker_MUpdate E t [policyUpdateOp E agent w (time_Now E t)]
                              [bulk.WithRefresh] with
         | Some e => Err e
         | None => Ok tt
         end.
Proof.
  intros Hin Hel. destruct (scan_found _ _ _ _ Hin Hel) as (r & c & Hs).
  exists (r, c). rewrite handlePolicyChange_run, Hs. split; reflexivity.
Qed.

Lemma reconciler_returns_store_answer_witness :
  exists w,
    snd (_handlePolicyChange refusingEnv (agentA1 1 0)
           [policyAck policyP "2" "0"] [])
    = ([] ++ [policyUpdate refusingEnv (agentA1 1 0) w
                           (time_Now refusingEnv [])])%list
    /\ fst (_handlePolicyChange refusingEnv (agentA1 1 0)
              [policyAck policyP "2" "0"] [])
       = Err (OtherError "es unavailable").
Proof.
  apply (reconciler_returns_store_answer refusingEnv (agentA1 1 0)
           [policyAck policyP "2" "0"] [] (policyAck policyP "2" "0") (2, 0)).
  - simpl. left. reflexivity.
  - exists (mkPolicyAction policyP 2 0).
    split; [vm_compute; reflexivity|].
    split; [reflexivity|]. split; [reflexivity|].
    unfold pair_lt, agentPair. simpl. lia.
Defined.

(** ** Further properties of the event loop *)

Lemma handlePolicyChange_nil E agent t :
  _handlePolicyChange E agent [] t = (Ok tt, t).
Proof. reflexivity. Qed.

(** After a loop that ended well the reconciler gets the policy
    acknowledgments of the batch, or is not called when there is none,
    which comes to the same. *)
Lemma handleAckEvents_ok E agent events t st t1 :
  ackLoop E agent events (∅, []) t = (Ok st, t1) ->
  _handleAckEvents E agent events t
  = _handlePolicyChange E agent (policyAcksOf events) t1.
Proof.
  intros Hloop. rewrite handleAckEvents_run, Hloop.
  destruct (ackLoop_sound _ _ _ _ _ _ _ Hloop) as (added & _ & _ & _ & Hacks).
  simpl in Hacks. rewrite Hacks.
  destruct (policyAcksOf events); reflexivity.
Qed.

Lemma probes_app l1 l2 : probes (l1 ++ l2)%list = (probes l1 ++ probes l2)%list.
Proof. unfold probes. apply flat_map_app. Qed.

Lemma nonPolicyIds_cons ev events :
  nonPolicyIds (ev :: events)
  = (nonPolicyIds [ev] ++ nonPolicyIds events)%list.
Proof.
  unfold nonPolicyIds. simpl.
  destruct (strings.HasPrefix (ActionId ev) "policy:"); reflexivity.
Qed.

Lemma ackLoop_probes E agent events st t st' t' :
  ackLoop E agent events st t = (Ok st', t') ->
  exists added,
    t' = (t ++ added)%list /\ probes added = nonPolicyIds events.
Proof.
  revert st t. induction events as [|ev events IH]; intros st t; simpl.
  - intros [= <- <-]. exists []. now rewrite app_nil_r.
  - unfold bind. destruct st as [m acks].
    rewrite ackEvent_run. cbv zeta.
    rewrite (nonPolicyIds_cons ev events). unfold nonPolicyIds at 1. simpl.
    destruct (agentIdMismatch agent ev); [discriminate|].
    destruct (strings.HasPrefix (ActionId ev) "policy:") eqn:Hpre; simpl.
    { intros Hloop. exact (IH _ _ Hloop). }
    destruct (gCache_GetAction E t (ActionId ev)).
    { intros Hloop. destruct (IH _ _ Hloop) as (a2 & -> & Hp).
      exists (CacheGetAction (ActionId ev) :: a2).
      split; [now rewrite <- app_assoc|]. simpl. now rewrite Hp. }
    destruct (sv_Read E _ _ _) as [e|action]; [discriminate|].
    intros Hloop. destruct (IH _ _ Hloop) as (a2 & -> & Hp).
    exists (CacheGetAction (ActionId ev)
              :: SavedRead (AGENT_ACTION_SAVED_OBJECT_TYPE E) (ActionId ev) :: a2).
    split; [now rewrite <- app_assoc|]. simpl. now rewrite Hp.
Qed.

(** X5. What [_handleAckEvents] hands to the reconciler.  When the loop
    over the events fails, its error is the result and the reconciler is
    not run.  When it ends well, the result is that of
    [_handlePolicyChange] on the action ids of the batch that start with
    "policy:", in batch order, whatever other events the batch holds. *)
Theorem handler_runs_reconciler_on_policy_acks
  (E : Env) (agent : Agent) (events : list Event) (t : Trace) :
  match ackLoop E agent events (∅, []) t with
  | (Ok st, t1) =>
      snd st = policyAcksOf events
      /\ _handleAckEvents E agent events t
         = _handlePolicyChange E agent (policyAcksOf events) t1
  | (Err e, t1) => _handleAckEvents E agent events t = (Err e, t1)
  end.
Proof.
  destruct (ackLoop E agent events (∅, []) t) as [[st|e] t1] eqn:Hloop.
  - split; [|now apply (handleAckEvents_ok E agent events t st)].
    destruct (ackLoop_sound _ _ _ _ _ _ _ Hloop) as (_ & _ & _ & _ & Hacks).
    exact Hacks.
  - now rewrite handleAckEvents_run, Hloop.
Qed.

(** X6. A batch costs at most one store write, and it comes last: the
    effects of [_handleAckEvents] are cache probes and reads for
    identifiers that are no policy acknowledgment, followed by nothing or
    by the one update, which needs an eligible policy acknowledgment in the
    batch. *)
Theorem batch_writes_at_most_once_and_last
  (E : Env) (agent : Agent) (events : list Event) (t : Trace) :
  exists reads w,
    snd (_handleAckEvents E agent events t) = (t ++ reads ++ w)%list
    /\ Forall resolutionEffect reads
    /\ noStoreWrite reads
    /\ (w = []
        \/ exists a p,
             In a (policyAcksOf events) /\ eligible agent a p
             /\ w = [policyUpdate E agent p (time_Now E (t ++ reads)%list)]).
Proof.
  destruct (ackLoop E agent events (∅, []) t) as [[st|e] t1] eqn:Hloop;
    destruct (ackLoop_sound _ _ _ _ _ _ _ Hloop) as (added & -> & Hres & _).
  - rewrite (handleAckEvents_ok E agent events t st _ Hloop).
    rewrite handlePolicyChange_run.
    destruct (scan agent (policyAcksOf events)) as [[f r] c] eqn:Hs.
    destruct f.
    + destruct (scan_some _ _ _ _ Hs) as [(a & Hin & Hel) _].
      exists added,
        [policyUpdate E agent (r, c) (time_Now E (t ++ added)%list)].
      simpl. split; [now rewrite <- app_assoc|].
      split; [exact Hres|].
      split; [now apply resolutionEffect_noStoreWrite|].
      right. now exists a, (r, c).
    + exists added, []. simpl. rewrite app_nil_r.
      split; [reflexivity|]. split; [exact Hres|].
      split; [now apply resolutionEffect_noStoreWrite|now left].
  - exists added, []. rewrite handleAckEvents_run, Hloop. simpl.
    rewrite app_nil_r. split; [reflexivity|]. split; [exact Hres|].
    split; [now apply resolutionEffect_noStoreWrite|now left].
Qed.

(** X7. The loop stops at the first failure: when it fails on a batch, the
    result and the effects of [_handleAckEvents] are the same for every
    batch that goes on with more events; none of them is looked at. *)
Theorem batch_fails_fast
  (E : Env) (agent : Agent) (pre post : list Event) (t : Trace)
  (e : error) (t1 : Trace) :
  ackLoop E agent pre (∅, []) t = (Err e, t1) ->
  _handleAckEvents E agent (pre ++ post)%list t = (Err e, t1)
  /\ _handleAckEvents E agent pre t = (Err e, t1).
Proof.
  intros Hloop. split.
  - now rewrite handleAckEvents_run, ackLoop_app, Hloop.
  - now rewrite handleAckEvents_run, Hloop.
Qed.

Lemma batch_fails_fast_witness :
  _handleAckEvents (sampleEnv []) (agentA1 1 0)
    ([ack "unknown-action" ""] ++ [ack (policyAck policyP "2" "0") "A1"])%list []
  = (Err (OtherError "not found"),
     [CacheGetAction "unknown-action";
      SavedRead "agent-action" "unknown-action"])
  /\ _handleAckEvents (sampleEnv []) (agentA1 1 0) [ack "unknown-action" ""] []
     = (Err (OtherError "not found"),
        [CacheGetAction "unknown-action";
         SavedRead "agent-action" "unknown-action"]).
Proof.
  apply (batch_fails_fast (sampleEnv []) (agentA1 1 0)
           [ack "unknown-action" ""] [ack (policyAck policyP "2" "0") "A1"] []).
  vm_compute. reflexivity.
Defined.

(** X8. When [_handleAckEvents] succeeds, the cache was probed once for
    each event that is no policy acknowledgment, in batch order, and for
    nothing else. *)
Theorem success_probes_each_action_once
  (E : Env) (agent : Agent) (events : list Event) (t t' : Trace) :
  _handleAckEvents E agent events t = (Ok tt, t') ->
  exists added,
    t' = (t ++ added)%list /\ probes added = nonPolicyIds events.
Proof.
  intros H.
  destruct (ackLoop E agent events (∅, []) t) as [[st|e] t1] eqn:Hloop.
  - rewrite (handleAckEvents_ok E agent events t st _ Hloop) in H.
    destruct (ackLoop_probes _ _ _ _ _ _ _ Hloop) as (added & -> & Hp).
    rewrite handlePolicyChange_run in H.
    destruct (scan agent (policyAcksOf events)) as [[f r] c]. destruct f.
    + cbv zeta in H.
      destruct (bulker_MUpdate E (t ++ added)%list _ _); [discriminate|].
      injection H as <-. eexists. rewrite <- app_assoc.
      split; [reflexivity|]. rewrite probes_app, Hp. simpl.
      now rewrite app_nil_r.
    + injection H as <-. now exists added.
  - rewrite handleAckEvents_run, Hloop in H. discriminate.
Qed.

Lemma success_probes_each_action_once_witness :
  exists added,
    [CacheGetAction "a1"; BulkMUpdate
       [policyUpdateOp cachedEnv (agentA1 1 0) (2, 0) (time_Now cachedEnv [])]
       [bulk.WithRefresh]]
    = ([] ++ added)%list
    /\ probes added
       = nonPolicyIds [ack "a1" "A1"; ack (policyAck policyP "2" "0") ""].
Proof.
  apply (success_probes_each_action_once cachedEnv (agentA1 1 0)
           [ack "a1" "A1"; ack (policyAck policyP "2" "0") ""] []).
  rewrite (handleAckEvents_ok cachedEnv (agentA1 1 0) _ []
             (regroup ∅ (mkAction "a1" "POLICY_CHANGE" ""),
              [policyAck policyP "2" "0"]) [CacheGetAction "a1"]).
  - rewrite handlePolicyChange_run.
    replace (scan (agentA1 1 0) _) with (true, 2, 0)
      by (vm_compute; reflexivity).
    reflexivity.
  - reflexivity.
Defined.

Lemma regroup_keyed m action :
  (forall ty l, m !! ty = Some l ->
                l <> [] /\ Forall (fun a => Type_ a = ty) l) ->
  forall ty l, regroup m action !! ty = Some l ->
               l <> [] /\ Forall (fun a => Type_ a = ty) l.
Proof.
  intros Hm ty l. unfold regroup.
  destruct (decide (Type_ action = ty)) as [<-|Hne].
  - rewrite lookup_insert_eq. intros [= <-]. split.
    + destruct (default [] (m !! Type_ action)); discriminate.
    + apply Forall_app. split; [|repeat constructor].
      destruct (m !! Type_ action) as [l0|] eqn:Hl; simpl; [|constructor].
      exact (proj2 (Hm _ _ Hl)).
  - rewrite lookup_insert_ne by exact Hne. apply Hm.
Qed.

(** X9. The groups the loop builds are keyed by type: after any run of the
    loop that ends well, every key of the map [m] holds a list that is not
    empty and whose actions all have that key as their type. *)
Theorem groups_are_keyed_by_type
  (E : Env) (agent : Agent) (events : list Event) (t : Trace) :
  forall st t1,
    ackLoop E agent events (∅, []) t = (Ok st, t1) ->
    forall ty l, fst st !! ty = Some l ->
                 l <> [] /\ Forall (fun a => Type_ a = ty) l.
Proof.
  assert (Hgen : forall evs (st0 : groups) t0 st t1,
             (forall ty l, fst st0 !! ty = Some l ->
                           l <> [] /\ Forall (fun a => Type_ a = ty) l) ->
             ackLoop E agent evs st0 t0 = (Ok st, t1) ->
             forall ty l, fst st !! ty = Some l ->
                          l <> [] /\ Forall (fun a => Type_ a = ty) l).
  { induction evs as [|ev evs IH]; intros [m acks] t0 st t1 Hinv; simpl.
    - intros [= <- <-]. exact Hinv.
    - unfold bind. rewrite ackEvent_run. cbv zeta.
      destruct (agentIdMismatch agent ev); [discriminate|].
      destruct (strings.HasPrefix (ActionId ev) "policy:").
      { intros Hloop. refine (IH _ _ _ _ _ Hloop). exact Hinv. }
      destruct (gCache_GetAction E t0 (ActionId ev)) as [action|].
      { intros Hloop. refine (IH _ _ _ _ _ Hloop). simpl.
        now apply regroup_keyed. }
      destruct (sv_Read E _ _ _) as [e|action]; [discriminate|].
      intros Hloop. refine (IH _ _ _ _ _ Hloop). simpl.
      now apply regroup_keyed. }
  intros st t1 Hloop. refine (Hgen events (∅, []) t st t1 _ Hloop).
  simpl. intros ty l Hl. rewrite lookup_empty in Hl. discriminate.
Qed.

Lemma groups_are_keyed_by_type_witness :
  [mkAction "a1" "POLICY_CHANGE" ""] <> []
  /\ Forall (fun a => Type_ a = "POLICY_CHANGE")
            [mkAction "a1" "POLICY_CHANGE" ""].
Proof.
  apply (groups_are_keyed_by_type cachedEnv (agentA1 1 0) [ack "a1" "A1"] []
           (regroup ∅ (mkAction "a1" "POLICY_CHANGE" ""), [])
           [CacheGetAction "a1"]).
  - reflexivity.
  - vm_compute. reflexivity.
Defined.

(** ** Further properties of the request handler *)

(** [_handleAcks] in one step. *)
Lemma handleAcksInner_run E id t :
  _handleAcks E id t =
  match authAgent E t id with
  | inl e => (Err e, t)
  | inr agent =>
      match ioutil_ReadAll E t with
      | inl e => (Err e, t)
      | inr raw =>
          match json_Unmarshal E raw with
          | inl e => (Err e, t)
          | inr req =>
              match _handleAckEvents E agent (Events req) t with
              | (Err e, t1) => (Err e, t1)
              | (Ok _, t1) =>
                  (match w_Write E t1 ackResponse with
                   | Some e => Err e
                   | None => Ok tt
                   end, (t1 ++ [ResponseWrite ackResponse])%list)
              end
          end
      end
  end.
Proof.
  unfold _handleAcks, bind, history, lift, fail, ret, emit, check.
  destruct (authAgent E t id) as [e|agent]; [reflexivity|].
  destruct (ioutil_ReadAll E t) as [e|raw]; [reflexivity|].
  destruct (json_Unmarshal E raw) as [e|req]; [reflexivity|].
  destruct (_handleAckEvents E agent (Events req) t) as [[[]|e] t1];
    [|reflexivity].
  destruct (w_Write E t1 ackResponse); reflexivity.
Qed.

(** The effects of [_handleAckEvents] are probes, reads and updates. *)
Lemma handleAckEvents_effects E agent events t :
  exists added,
    snd (_handleAckEvents E agent events t) = (t ++ added)%list
    /\ Forall ackEffect added.
Proof.
  rewrite handleAckEvents_run.
  destruct (ackLoop E agent events (∅, []) t) as [[st|e] t1] eqn:Hloop;
    destruct (ackLoop_sound _ _ _ _ _ _ _ Hloop) as (added & -> & Hres & _);
    assert (Hack : Forall ackEffect added)
      by (eapply List.Forall_impl; [|exact Hres]; intros []; simpl; tauto).
  - destruct (snd st) as [|a acks]; [now exists added|].
    rewrite handlePolicyChange_run.
    destruct (scan agent (a :: acks)) as [[f r] c]. destruct f.
    + eexists. simpl. rewrite <- app_assoc. split; [reflexivity|].
      apply Forall_app. split; [exact Hack|]. repeat constructor.
    + now exists added.
  - now exists added.
Qed.

(** X11. The response is written only after the events were handled with
    success, and it is always the same payload.  A run of [_handleAcks]
    that succeeds ends with the write of the payload; a run that fails has
    written no response, unless the failure is that of the write of the
    payload itself. *)
Theorem response_only_after_success
  (E : Env) (id : string) (t : Trace) :
  exists added,
    snd (_handleAcks E id t) = (t ++ added)%list
    /\ match fst (_handleAcks E id t) with
       | Ok _ =>
           exists before,
             added = (before ++ [ResponseWrite ackResponse])%list
             /\ Forall ackEffect before
       | Err e =>
           Forall ackEffect added
           \/ exists before,
                added = (before ++ [ResponseWrite ackResponse])%list
                /\ Forall ackEffect before
                /\ w_Write E (t ++ before)%list ackResponse = Some e
       end.
Proof.
  rewrite handleAcksInner_run.
  destruct (authAgent E t id) as [e|agent];
    [exists []; rewrite app_nil_r; simpl; auto|].
  destruct (ioutil_ReadAll E t) as [e|raw];
    [exists []; rewrite app_nil_r; simpl; auto|].
  destruct (json_Unmarshal E raw) as [e|req];
    [exists []; rewrite app_nil_r; simpl; auto|].
  destruct (handleAckEvents_effects E agent (Events req) t)
    as (added & Hsnd & Hack).
  destruct (_handleAckEvents E agent (Events req) t) as [[[]|e] t1];
    simpl in Hsnd; subst t1.
  - exists (added ++ [ResponseWrite ackResponse])%list.
    simpl. rewrite app_assoc. split; [reflexivity|].
    destruct (w_Write E (t ++ added)%list ackResponse) as [e|] eqn:Hw.
    + right. now exists added.
    + now exists added.
  - exists added. simpl. split; [reflexivity|]. now left.
Qed.

(** X12. Every request is answered once, last, and never with an error of
    the handler itself: [handleAcks] returns no error; when [_handleAcks]
    succeeds it adds nothing to its effects, so the run ends with the
    payload and nothing is logged; when [_handleAcks] fails, whatever the
    error, the run ends with [http.Error] carrying the error's text and the
    status 400. *)
Theorem every_request_is_answered
  (E : Env) (id : string) (t : Trace) :
  fst (handleAcks E id t) = Ok tt
  /\ match _handleAcks E id t with
     | (Ok _, t') =>
         handleAcks E id t = (Ok tt, t')
         /\ exists before, t' = (before ++ [ResponseWrite ackResponse])%list
     | (Err e, t') =>
         exists logged,
           snd (handleAcks E id t)
           = (t' ++ logged ++ [HttpError (Error e) StatusBadRequest])%list
           /\ (logged = [] \/ logged = [LogError e StatusBadRequest "Fail ACK"])
     end.
Proof.
  unfold handleAcks.
  pose proof (handleAcksInner_run E id t) as Hrun.
  destruct (_handleAcks E id t) as [[[]|e] t'] eqn:H.
  - split; [reflexivity|]. split; [reflexivity|].
    destruct (authAgent E t id) as [e|agent]; [discriminate|].
    destruct (ioutil_ReadAll E t) as [e|raw]; [discriminate|].
    destruct (json_Unmarshal E raw) as [e|req]; [discriminate|].
    destruct (_handleAckEvents E agent (Events req) t) as [[[]|e] t1];
      [|discriminate].
    injection Hrun as _ ->. now exists t1.
  - unfold bind, emit, ret.
    destruct (negb (error_eqb e context_Canceled)); simpl.
    + split; [reflexivity|]. exists [LogError e StatusBadRequest "Fail ACK"].
      split; [now rewrite <- app_assoc|now right].
    + split; [reflexivity|]. exists []. split; [reflexivity|now left].
Qed.

(** ** Further properties of the codec *)

Lemma Split_length s sep :
  List.length (strings.Split s sep) = S (Count s sep).
Proof.
  induction s as [|c r IH]; [reflexivity|]. simpl.
  destruct (Ascii.eqb c sep); simpl; [now rewrite IH|].
  destruct (strings.Split r sep) as [|h tl]; [discriminate|exact IH].
Qed.

Lemma Count_app a b sep : Count (a ++ b) sep = (Count a sep + Count b sep)%nat.
Proof.
  induction a as [|c r IH]; [reflexivity|].
  change (String c r ++ b) with (String c (r ++ b)). simpl. rewrite IH. lia.
Qed.

Lemma Count_zero s sep :
  Count s sep = O <-> strings.ContainsByte s sep = false.
Proof.
  induction s as [|c r IH]; simpl; [tauto|].
  destruct (Ascii.eqb c sep); simpl; [split; discriminate|exact IH].
Qed.

Lemma parse_three_colons a action :
  parsePolicyAction a = Some action -> Count a ":" = 3%nat.
Proof.
  unfold parsePolicyAction. pose proof (Split_length a ":") as HL.
  destruct (strings.Split a ":") as [|s0 [|s1 [|s2 [|s3 [|? ?]]]]];
    try discriminate.
  intros _. simpl in HL. lia.
Qed.

(** The segments of an identifier that parses. *)
Lemma parse_segments s1 s2 s3 action :
  parsePolicyAction ("policy:" ++ s1 ++ ":" ++ s2 ++ ":" ++ s3) = Some action ->
  strings.ContainsByte s1 ":" = false
  /\ strings.ContainsByte s2 ":" = false
  /\ strings.ContainsByte s3 ":" = false
  /\ uuid.FromString s1 <> None
  /\ strconv.Atoi s2 = Some (revIdx action)
  /\ strconv.Atoi s3 = Some (coordIdx action)
  /\ policyId action = s1.
Proof.
  intros Hp. pose proof (parse_three_colons _ _ Hp) as HC.
  change ("policy:" ++ s1 ++ ":" ++ s2 ++ ":" ++ s3)
    with ("policy" ++ String ":" (s1 ++ String ":" (s2 ++ String ":" s3)))
    in HC, Hp.
  rewrite Count_app in HC. simpl in HC.
  rewrite Count_app in HC. simpl in HC.
  rewrite Count_app in HC. simpl in HC.
  assert (H1 : strings.ContainsByte s1 ":" = false) by (apply Count_zero; lia).
  assert (H2 : strings.ContainsByte s2 ":" = false) by (apply Count_zero; lia).
  assert (H3 : strings.ContainsByte s3 ":" = false) by (apply Count_zero; lia).
  unfold parsePolicyAction in Hp.
  rewrite (Split_app "policy"), (Split_app s1), (Split_app s2), (Split_free s3)
    in Hp by (assumption || reflexivity).
  simpl negb in Hp. cbv iota in Hp.
  destruct (uuid.FromString s1) as [u|]; [|discriminate].
  destruct (strconv.Atoi s2) as [r|]; [|discriminate].
  destruct (strconv.Atoi s3) as [c|]; [|discriminate].
  injection Hp as <-. simpl. repeat split; try assumption. discriminate.
Qed.

Lemma parse_build s1 s2 s3 r c :
  strings.ContainsByte s1 ":" = false ->
  strings.ContainsByte s2 ":" = false ->
  strings.ContainsByte s3 ":" = false ->
  uuid.FromString s1 <> None ->
  strconv.Atoi s2 = Some r -> strconv.Atoi s3 = Some c ->
  parsePolicyAction ("policy:" ++ s1 ++ ":" ++ s2 ++ ":" ++ s3)
  = Some (mkPolicyAction s1 r c).
Proof.
  intros H1 H2 H3 Hu Hr Hc. unfold parsePolicyAction.
  change ("policy:" ++ s1 ++ ":" ++ s2 ++ ":" ++ s3)
    with ("policy" ++ String ":" (s1 ++ String ":" (s2 ++ String ":" s3))).
  rewrite (Split_app "policy"), (Split_app s1), (Split_app s2), (Split_free s3)
    by (assumption || reflexivity).
  simpl negb. cbv iota.
  destruct (uuid.FromString s1); [|contradiction]. now rewrite Hr, Hc.
Qed.

(** An identifier that parses starts with "policy:". *)
Lemma parse_prefix a action :
  parsePolicyAction a = Some action -> strings.HasPrefix a "policy:" = true.
Proof.
  unfold parsePolicyAction. pose proof (Join_Split a ":") as HJ.
  destruct (strings.Split a ":") as [|s0 [|s1 [|s2 [|s3 [|? ?]]]]];
    try discriminate.
  destruct (String.eqb s0 "policy") eqn:H0; [|discriminate].
  apply String.eqb_eq in H0. subst s0. intros _. rewrite <- HJ.
  unfold strings.HasPrefix.
  change (Join ["policy"; s1; s2; s3] ":")
    with (String "p" (String "o" (String "l" (String "i" (String "c"
           (String "y" (String ":" (s1 ++ String ":" (s2 ++ String ":" s3))))))))).
  simpl. now destruct (s1 ++ String ":" (s2 ++ String ":" s3)).
Qed.

(** X13. The prefix test of the loop agrees with the codec: an identifier
    that [parsePolicyAction] accepts starts with "policy:", so an event that
    carries it and passes the integrity check is set aside for the
    reconciler with no effect, never resolved as an ordinary action. *)
Theorem parseable_ids_reach_the_reconciler
  (E : Env) (agent : Agent) (ev : Event) (action : policyAction)
  (m : gmap string (list Action)) (acks : list string) (t : Trace) :
  parsePolicyAction (ActionId ev) = Some action ->
  strings.HasPrefix (ActionId ev) "policy:" = true
  /\ (agentIdMismatch agent ev = false ->
      ackEvent E agent (m, acks) ev t
      = (Ok (m, (acks ++ [ActionId ev])%list), t)).
Proof.
  intros Hp. pose proof (parse_prefix _ _ Hp) as Hpre.
  split; [exact Hpre|]. intros Hok. rewrite ackEvent_run. cbv zeta.
  now rewrite Hok, Hpre.
Qed.

Lemma parseable_ids_reach_the_reconciler_witness :
  strings.HasPrefix (ActionId (ack (policyAck policyP "2" "0") "A1")) "policy:"
  = true
  /\ ackEvent (sampleEnv []) (agentA1 1 0) (∅, [])
              (ack (policyAck policyP "2" "0") "A1") []
     = (Ok (∅, ([] ++ [ActionId (ack (policyAck policyP "2" "0") "A1")])%list),
        []).
Proof.
  destruct (parseable_ids_reach_the_reconciler (sampleEnv []) (agentA1 1 0)
              (ack (policyAck policyP "2" "0") "A1") (mkPolicyAction policyP 2 0)
              ∅ [] []) as [Hpre Hev].
  - vm_compute. reflexivity.
  - split; [exact Hpre|]. apply Hev. vm_compute. reflexivity.
Defined.

(** X14. An identifier that parses holds three colons, no more.  So a
    policy id that holds a colon makes the identifier unparseable, even one
    that [uuid.FromString] accepts, as it does the URN form. *)
Theorem policy_id_with_colon_never_parses
  (s1 s2 s3 : string) :
  strings.ContainsByte s1 ":" = true ->
  parsePolicyAction ("policy:" ++ s1 ++ ":" ++ s2 ++ ":" ++ s3) = None.
Proof.
  intros Hc.
  destruct (parsePolicyAction ("policy:" ++ s1 ++ ":" ++ s2 ++ ":" ++ s3))
    as [action|] eqn:Hp; [|reflexivity].
  destruct (parse_segments _ _ _ _ Hp) as (H1 & _). congruence.
Qed.

Lemma policy_id_with_colon_never_parses_witness :
  uuid.FromString "urn:uuid:6ba7b810-9dad-41d1-80b4-00c04fd430c8"
  = uuid.FromString policyP
  /\ parsePolicyAction
       ("policy:" ++ "urn:uuid:6ba7b810-9dad-41d1-80b4-00c04fd430c8"
          ++ ":" ++ "2" ++ ":" ++ "0") = None.
Proof.
  split; [vm_compute; reflexivity|].
  apply (policy_id_with_colon_never_parses
           "urn:uuid:6ba7b810-9dad-41d1-80b4-00c04fd430c8" "2" "0").
  vm_compute. reflexivity.
Defined.

Lemma digit_not_sign c :
  strconv.digit c <> None ->
  Ascii.eqb c "+" = false /\ Ascii.eqb c "-" = false.
Proof.
  intros Hd. split.
  - destruct (Ascii.eqb c "+") eqn:H; [|reflexivity].
    apply Ascii.eqb_eq in H. subst c. exfalso. apply Hd. reflexivity.
  - destruct (Ascii.eqb c "-") eqn:H; [|reflexivity].
    apply Ascii.eqb_eq in H. subst c. exfalso. apply Hd. reflexivity.
Qed.

(** A plus sign or a zero before the first digit does not change the
    number. *)
Lemma Atoi_padded c r :
  strconv.digit c <> None ->
  strconv.Atoi (String "+" (String c r)) = strconv.Atoi (String c r)
  /\ strconv.Atoi (String "0" (String c r)) = strconv.Atoi (String c r).
Proof.
  intros Hd. destruct (digit_not_sign c Hd) as [Hp Hm].
  unfold strconv.Atoi. cbv zeta. rewrite Hp, Hm.
  change (Ascii.eqb "+" "+") with true. change (Ascii.eqb "+" "-") with false.
  change (Ascii.eqb "0" "+") with false. change (Ascii.eqb "0" "-") with false.
  cbn [orb negb andb]. split; reflexivity.
Qed.

(** X15. The text of the counters is not canonical: when an identifier
    parses and a counter starts with a digit, writing a plus sign or a zero
    before that counter gives another identifier that parses to the same
    action. *)
Theorem counters_are_not_canonical
  (s1 s3 : string) (c : ascii) (r : string) (action : policyAction) :
  parsePolicyAction ("policy:" ++ s1 ++ ":" ++ String c r ++ ":" ++ s3)
  = Some action ->
  strconv.digit c <> None ->
  parsePolicyAction ("policy:" ++ s1 ++ ":" ++ String "+" (String c r) ++ ":" ++ s3)
  = Some action
  /\ parsePolicyAction
       ("policy:" ++ s1 ++ ":" ++ String "0" (String c r) ++ ":" ++ s3)
     = Some action.
Proof.
  intros Hp Hd.
  destruct (parse_segments _ _ _ _ Hp) as (H1 & H2 & H3 & Hu & Hr & Hc & Hid).
  destruct (Atoi_padded c r Hd) as [Hplus Hzero].
  assert (Hact : action = mkPolicyAction s1 (revIdx action) (coordIdx action))
    by (destruct action; simpl in *; now subst).
  split; rewrite Hact at 1; apply parse_build; try assumption;
    try (simpl; exact H2); congruence.
Qed.

Lemma counters_are_not_canonical_witness :
  parsePolicyAction ("policy:" ++ policyP ++ ":" ++ "+5" ++ ":" ++ "2")
  = Some (mkPolicyAction policyP 5 2)
  /\ parsePolicyAction ("policy:" ++ policyP ++ ":" ++ "05" ++ ":" ++ "2")
     = Some (mkPolicyAction policyP 5 2).
Proof.
  apply (counters_are_not_canonical policyP "2" "5" "" (mkPolicyAction policyP 5 2)).
  - vm_compute. reflexivity.
  - vm_compute. discriminate.
Defined.
